(** * OllamaUI: the chat route handler ([src/app/api/chat/route.ts])

    A shallow embedding of the [POST] handler: request normalisation, the
    object-detection pipeline with its enclosing [try]/[catch], and the
    framing of the response message as a Vercel data stream.

    JavaScript strings are sequences of UTF-16 code units, so a string is a
    [list N] and [length] is the JavaScript [.length].  Values obtained from
    [JSON.parse] are modelled by [json]; [undefined] is [None] in
    [option json].  A JSON number is an integer: up to 2^53 in magnitude it
    is that very number, beyond it stands for the nearest double, whose text
    is the engine's. *)

From Stdlib.Strings Require Import String Ascii Byte.
From Stdlib Require Import DecimalString.
From Stdlib Require Import List NArith ZArith Lia Bool.
Import ListNotations.

Set Warnings "-register-all".

(** ** Strings *)

Definition char16 := N.
Definition jsstring := list char16.

(** An ASCII literal of the source, as code units. *)
Definition lit (s : string) : jsstring :=
  List.map N_of_ascii (list_ascii_of_string s).

Definition LF : char16 := 10%N.
Definition DQUOTE : char16 := 34%N.
Definition BACKSLASH : char16 := 92%N.

Fixpoint str_eqb (a b : jsstring) : bool :=
  match a, b with
  | [], [] => true
  | x :: a', y :: b' => N.eqb x y && str_eqb a' b'
  | _, _ => false
  end.

(** [Array.prototype.join] on strings already converted. *)
Fixpoint join (sep : jsstring) (parts : list jsstring) : jsstring :=
  match parts with
  | [] => []
  | [p] => p
  | p :: rest => p ++ sep ++ join sep rest
  end.

(** The decimal digits of an integer.  [Number::toString] gives these
    digits for every integer up to 2^53 in magnitude; the handler itself
    only prints a status, the clock and a string length this way. *)
Definition decimal_N (n : N) : jsstring :=
  lit (NilEmpty.string_of_uint (N.to_uint n)).

Definition decimal_Z (z : Z) : jsstring :=
  lit (NilEmpty.string_of_int (Z.to_int z)).

(** The integers every one of which is a double of its own. *)
Definition safe_integer (z : Z) : bool := (Z.abs z <=? 2 ^ 53)%Z.

(** A string, or [undefined] where a string is expected ([x + '\n'], a
    template hole). *)
Definition string_or_undefined (s : option jsstring) : jsstring :=
  match s with
  | Some text => text
  | None => lit "undefined"
  end.

(** [String.prototype.split] with the one-unit separator [sep]. *)
Fixpoint split_on (sep : char16) (s : jsstring) : list jsstring :=
  match s with
  | [] => [[]]
  | c :: rest =>
      if N.eqb c sep then [] :: split_on sep rest
      else match split_on sep rest with
           | line :: lines => (c :: line) :: lines
           | [] => [[c]]
           end
  end.

(** ** Values produced by [JSON.parse] *)

Inductive json : Type :=
| JNull
| JBool (b : bool)
| JNum (z : Z)
| JStr (s : jsstring)
| JArr (items : list json)
| JObj (fields : list (jsstring * json)).

(** A JavaScript value position that may hold [undefined]. *)
Definition value := option json.

(** Own-property lookup in a parsed object. *)
Fixpoint lookup (k : jsstring) (fields : list (jsstring * json)) : value :=
  match fields with
  | [] => None
  | (k', v) :: rest => if str_eqb k k' then Some v else lookup k rest
  end.

(** Truthiness, [ToBoolean]. *)
Definition truthy (v : value) : bool :=
  match v with
  | None | Some JNull | Some (JBool false) => false
  | Some (JNum z) => negb (Z.eqb z 0)
  | Some (JStr s) => match s with [] => false | _ => true end
  | Some _ => true
  end.

(** ** [JSON.stringify] *)

Definition is_high_surrogate (c : char16) : bool :=
  (N.leb 0xD800 c && N.leb c 0xDBFF)%N.
Definition is_low_surrogate (c : char16) : bool :=
  (N.leb 0xDC00 c && N.leb c 0xDFFF)%N.

Definition hex_digit (n : N) : char16 :=
  if (n <? 10)%N then (48 + n)%N else (87 + n)%N.

(** [UnicodeEscape]: a backslash, [u], and four lower-case hex digits. *)
Definition unicode_escape (c : char16) : jsstring :=
  [BACKSLASH; 117; hex_digit ((c / 4096) mod 16); hex_digit ((c / 256) mod 16);
   hex_digit ((c / 16) mod 16); hex_digit (c mod 16)]%N.

(** One code point that is not a well-formed surrogate pair. *)
Definition quote_unit (c : char16) : jsstring :=
  if (c =? 8)%N then [BACKSLASH; 98%N]
  else if (c =? 9)%N then [BACKSLASH; 116%N]
  else if (c =? 10)%N then [BACKSLASH; 110%N]
  else if (c =? 12)%N then [BACKSLASH; 102%N]
  else if (c =? 13)%N then [BACKSLASH; 114%N]
  else if (c =? 34)%N then [BACKSLASH; DQUOTE]
  else if (c =? 92)%N then [BACKSLASH; BACKSLASH]
  else if (c <? 32)%N || is_high_surrogate c || is_low_surrogate c
       then unicode_escape c
  else [c].

(** [QuoteJSONString] walks the string by code points: a high surrogate
    followed by a low one is copied, any other surrogate is escaped. *)
Fixpoint quote_body (s : jsstring) : jsstring :=
  match s with
  | [] => []
  | c :: rest =>
      if is_high_surrogate c then
        match rest with
        | d :: rest' =>
            if is_low_surrogate d then c :: d :: quote_body rest'
            else unicode_escape c ++ quote_body rest
        | [] => unicode_escape c
        end
      else quote_unit c ++ quote_body rest
  end.

Definition quote (s : jsstring) : jsstring :=
  DQUOTE :: quote_body s ++ [DQUOTE].

(** [JSON.stringify] without indentation; object members in property order.
    The handler applies it to a string and to its own two trailer payloads,
    whose numbers are 10 and a string length. *)
Fixpoint stringify (v : json) : jsstring :=
  match v with
  | JNull => lit "null"
  | JBool true => lit "true"
  | JBool false => lit "false"
  | JNum z => decimal_Z z
  | JStr s => quote s
  | JArr items => lit "[" ++ join (lit ",") (List.map stringify items) ++ lit "]"
  | JObj fields =>
      lit "{" ++
      join (lit ",")
        (List.map (fun kv => quote (fst kv) ++ lit ":" ++ stringify (snd kv)) fields)
      ++ lit "}"
  end.

(** [JSON.stringify(undefined)] is [undefined], which a template renders as
    the nine letters. *)
Definition stringify_in_template (v : value) : jsstring :=
  match v with
  | None => lit "undefined"
  | Some x => stringify x
  end.

(** ** [TextEncoder] and [encodeURIComponent] *)

Definition byte_of (n : N) : byte :=
  match Byte.of_N n with Some b => b | None => x00 end.

(** UTF-8 bytes of one code point. *)
Definition utf8_code_point (cp : N) : list byte :=
  if (cp <? 0x80)%N then [byte_of cp]
  else if (cp <? 0x800)%N then
    [byte_of (0xC0 + cp / 64); byte_of (0x80 + cp mod 64)]%N
  else if (cp <? 0x10000)%N then
    [byte_of (0xE0 + cp / 4096); byte_of (0x80 + (cp / 64) mod 64);
     byte_of (0x80 + cp mod 64)]%N
  else
    [byte_of (0xF0 + cp / 262144); byte_of (0x80 + (cp / 4096) mod 64);
     byte_of (0x80 + (cp / 64) mod 64); byte_of (0x80 + cp mod 64)]%N.

Definition code_point_of_pair (hi lo : char16) : N :=
  (0x10000 + (hi - 0xD800) * 1024 + (lo - 0xDC00))%N.

Definition REPLACEMENT : N := 0xFFFD%N.

(** [new TextEncoder().encode(s)]: a surrogate without its partner becomes
    U+FFFD. *)
Fixpoint TextEncoder_encode (s : jsstring) : list byte :=
  match s with
  | [] => []
  | c :: rest =>
      if is_high_surrogate c then
        match rest with
        | d :: rest' =>
            if is_low_surrogate d
            then utf8_code_point (code_point_of_pair c d) ++ TextEncoder_encode rest'
            else utf8_code_point REPLACEMENT ++ TextEncoder_encode rest
        | [] => utf8_code_point REPLACEMENT
        end
      else if is_low_surrogate c
           then utf8_code_point REPLACEMENT ++ TextEncoder_encode rest
      else utf8_code_point c ++ TextEncoder_encode rest
  end.

(** ** Exceptions, the console, and the handler's monad *)

Inductive thrown : Type :=
| ErrorInstance (message : jsstring)   (* [instanceof Error]: Error, TypeError, ... *)
| NonError (v : value).                (* any other thrown value *)

Inductive outcome (A : Type) : Type :=
| Returned (a : A)
| Thrown (e : thrown).
Arguments Returned {A} a.
Arguments Thrown {A} e.

(** One [console.error(label, error)] call. *)
Definition console := list (jsstring * thrown).

(** A computation may log and then return or throw; what was logged stays
    logged when it throws. *)
Definition M (A : Type) : Type := console -> outcome A * console.

Definition ret {A} (a : A) : M A := fun c => (Returned a, c).
Definition throw {A} (e : thrown) : M A := fun c => (Thrown e, c).
Definition bind {A B} (m : M A) (k : A -> M B) : M B :=
  fun c => match m c with
           | (Returned a, c') => k a c'
           | (Thrown e, c') => (Thrown e, c')
           end.
Definition lift {A} (o : outcome A) : M A := fun c => (o, c).
Definition try_catch {A} (body : M A) (handler : thrown -> M A) : M A :=
  fun c => match body c with
           | (Returned a, c') => (Returned a, c')
           | (Thrown e, c') => handler e c'
           end.
Definition console_error (label : jsstring) (e : thrown) : M unit :=
  fun c => (Returned tt, c ++ [(label, e)]).

Declare Scope js_scope.
Delimit Scope js_scope with js.
Notation "x <- m ;; k" := (bind m (fun x => k))
  (at level 61, m at next level, right associativity) : js_scope.
Notation "m ;;; k" := (bind m (fun _ => k))
  (at level 61, right associativity) : js_scope.
Local Open Scope js_scope.

Fixpoint mapM {A B} (f : A -> M B) (xs : list A) : M (list B) :=
  match xs with
  | [] => ret []
  | x :: rest => y <- f x ;; ys <- mapM f rest ;; ret (y :: ys)
  end.

(** Wording of V8 for the [TypeError]s the handler can run into. *)
Definition TypeError_read (what prop : string) : thrown :=
  ErrorInstance
    (lit "Cannot read properties of " ++ lit what ++ lit " (reading '" ++
     lit prop ++ lit "')").
Definition TypeError_not_a_function (expr : string) : thrown :=
  ErrorInstance (lit expr ++ lit " is not a function").
Definition TypeError_destructure (prop what : string) : thrown :=
  ErrorInstance
    (lit "Cannot destructure property '" ++ lit prop ++ lit "' of '" ++ lit what ++
     lit "' as it is null.").
Definition TypeError_primitive : thrown :=
  ErrorInstance (lit "Cannot convert object to primitive value").
Definition URIError : thrown := ErrorInstance (lit "URI malformed").

(** [v.prop] for a property name that no built-in prototype and no string or
    array defines (messages, data, images, labels, ...). *)
Definition get (v : value) (prop : string) : outcome value :=
  match v with
  | None => Thrown (TypeError_read "undefined" prop)
  | Some JNull => Thrown (TypeError_read "null" prop)
  | Some (JObj fields) => Returned (lookup (lit prop) fields)
  | Some _ => Returned None
  end.

Definition upper_hex_digit (n : N) : char16 :=
  if (n <? 10)%N then (48 + n)%N else (55 + n)%N.

Definition percent_byte (b : byte) : jsstring :=
  [37%N; upper_hex_digit (Byte.to_N b / 16); upper_hex_digit (Byte.to_N b mod 16)].

Definition uri_unreserved (c : char16) : bool :=
  ((65 <=? c) && (c <=? 90) || (97 <=? c) && (c <=? 122) || (48 <=? c) && (c <=? 57)
   || existsb (N.eqb c) [45; 95; 46; 33; 126; 42; 39; 40; 41])%N.

Definition percent_code_point (cp : N) : jsstring :=
  List.concat (List.map percent_byte (utf8_code_point cp)).

Fixpoint encodeURIComponent (s : jsstring) : outcome jsstring :=
  let continue (head : jsstring) (tail : outcome jsstring) :=
    match tail with
    | Returned t => Returned (head ++ t)
    | Thrown e => Thrown e
    end in
  match s with
  | [] => Returned []
  | c :: rest =>
      if uri_unreserved c then continue [c] (encodeURIComponent rest)
      else if is_low_surrogate c then Thrown URIError
      else if is_high_surrogate c then
        match rest with
        | d :: rest' =>
            if is_low_surrogate d
            then continue (percent_code_point (code_point_of_pair c d))
                          (encodeURIComponent rest')
            else Thrown URIError
        | [] => Thrown URIError
        end
      else continue (percent_code_point c) (encodeURIComponent rest)
  end.

(** ** The outside world

    Everything the handler awaits or reads from its environment: the two
    [fetch] calls, the S3 client, the clock and [process.env].  Two
    conversions are left to the engine as well: the number a string stands
    for (when an [images] object carries a textual [length]) and the text of
    a number beyond the safe integers (exponent or shortest-digits form). *)

Inductive http_method := HttpGet | HttpPost.

Record fetch_response := {
  status : N;
  blob_bytes : outcome (list byte);   (* [blob()], [arrayBuffer()], [Buffer.from] *)
  json_body : outcome json            (* [json()] *)
}.

(** [Response.ok] of the Fetch standard. *)
Definition ok (r : fetch_response) : bool :=
  ((200 <=? status r) && (status r <=? 299))%N.

Record PutObjectCommand := {
  Bucket : option jsstring;
  Key : jsstring;
  Body : list byte;
  ContentType : jsstring
}.

Record World := {
  env_S3_BUCKET_NAME : option jsstring;
  env_YOLO_SERVICE : option jsstring;
  Date_now : N;
  fetch : value -> http_method -> outcome fetch_response;
  s3_send : PutObjectCommand -> outcome unit;
  string_number_positive : jsstring -> bool;  (* [ToNumber(s) > 0] *)
  number_text : Z -> jsstring                 (* [Number::toString], |z| > 2^53 *)
}.

(** ** Conversions of parsed values *)

Fixpoint sequence {A : Type} (steps : list (outcome A)) : outcome (list A) :=
  match steps with
  | [] => Returned []
  | Thrown e :: _ => Thrown e
  | Returned a :: rest =>
      match sequence rest with
      | Returned others => Returned (a :: others)
      | Thrown e => Thrown e
      end
  end.

Definition then_text (o : outcome (list jsstring)) (f : list jsstring -> jsstring)
  : outcome jsstring :=
  match o with
  | Returned parts => Returned (f parts)
  | Thrown e => Thrown e
  end.

(** [Number::toString] *)
Definition number_to_string (w : World) (z : Z) : jsstring :=
  if safe_integer z then decimal_Z z else number_text w z.

(** The abstract operation [ToString].  An object parsed from JSON with a
    member of its own named [toString] has no callable conversion left
    ([valueOf] gives the object back), so [ToPrimitive] throws; any other
    object reads [[object Object]].  An array is joined with commas, its
    [null] elements as empty strings, the others converted from left to
    right. *)
Fixpoint to_string (w : World) (v : json) : outcome jsstring :=
  match v with
  | JNull => Returned (lit "null")
  | JBool true => Returned (lit "true")
  | JBool false => Returned (lit "false")
  | JNum z => Returned (number_to_string w z)
  | JStr s => Returned s
  | JArr items =>
      then_text
        (sequence (List.map (fun x => match x with
                                      | JNull => Returned []
                                      | _ => to_string w x
                                      end) items))
        (join (lit ","))
  | JObj fields =>
      match lookup (lit "toString") fields with
      | Some _ => Thrown TypeError_primitive
      | None => Returned (lit "[object Object]")
      end
  end.

(** An element under [Array.prototype.join]. *)
Definition join_element (w : World) (x : json) : outcome jsstring :=
  match x with JNull => Returned [] | _ => to_string w x end.

(** [items.join(sep)] *)
Definition join_items (w : World) (sep : jsstring) (items : list json) : outcome jsstring :=
  then_text (sequence (List.map (join_element w) items)) (join sep).

(** A template-literal hole [${v}]. *)
Definition interpolate (w : World) (v : value) : outcome jsstring :=
  match v with
  | None => Returned (lit "undefined")
  | Some x => to_string w x
  end.

(** ** Request normaliser (lines 13-25) *)

Definition ATTACHMENTS : jsstring := lit "experimental_attachments".

(** [const { messages, selectedModel, data } = await req.json()] *)
Definition destructure_body (body : json) : outcome (value * value * value) :=
  match body with
  | JNull => Thrown (TypeError_destructure "messages" "(intermediate value)")
  | JObj fields =>
      Returned (lookup (lit "messages") fields,
                lookup (lit "selectedModel") fields,
                lookup (lit "data") fields)
  | _ => Returned (None, None, None)
  end.

Definition indexed (items : list json) : list (jsstring * json) :=
  List.combine (List.map (fun i => decimal_N (N.of_nat i)) (List.seq 0 (length items)))
               items.

(** The own enumerable properties an object rest pattern copies. *)
Definition own_properties (message : json) : list (jsstring * json) :=
  match message with
  | JObj fields => fields
  | JArr items => indexed items
  | JStr s => indexed (List.map (fun c => JStr [c]) s)
  | _ => []
  end.

Definition without (k : jsstring) (fields : list (jsstring * json)) :=
  List.filter (fun kv => negb (str_eqb (fst kv) k)) fields.

(** [const { experimental_attachments, ...cleanMessage } = message;
     return cleanMessage] *)
Definition cleanMessage (message : json) : outcome json :=
  match message with
  | JNull => Thrown (TypeError_destructure "experimental_attachments" "message")
  | _ => Returned (JObj (without ATTACHMENTS (own_properties message)))
  end.

(** [messages.map(...)] *)
Definition cleanedMessages (messages : value) : M (list json) :=
  match messages with
  | None => throw (TypeError_read "undefined" "map")
  | Some JNull => throw (TypeError_read "null" "map")
  | Some (JArr items) => mapM (fun message => lift (cleanMessage message)) items
  | Some _ => throw (TypeError_not_a_function "messages.map")
  end.

(** [data?.images] *)
Definition optional_images (data : value) : value :=
  match data with
  | Some (JObj fields) => lookup (lit "images") fields
  | _ => None
  end.

(** [images.length]; the [&&] before it keeps [null] and [undefined] away. *)
Definition length_of (images : value) : value :=
  match images with
  | Some (JArr items) => Some (JNum (Z.of_nat (length items)))
  | Some (JStr s) => Some (JNum (Z.of_nat (length s)))
  | Some (JObj fields) => lookup (lit "length") fields
  | _ => None
  end.

(** [v > 0]: the operand goes through [ToPrimitive] and [ToNumber]; an
    object that converts reads [[object Object]], which is no number. *)
Definition greater_than_zero (w : World) (v : value) : outcome bool :=
  match v with
  | None | Some JNull => Returned false
  | Some (JBool b) => Returned b
  | Some (JNum z) => Returned (0 <? z)%Z
  | Some (JStr s) => Returned (string_number_positive w s)
  | Some (JArr items) =>
      match to_string w (JArr items) with
      | Returned text => Returned (string_number_positive w text)
      | Thrown e => Thrown e
      end
  | Some (JObj fields) =>
      match to_string w (JObj fields) with
      | Returned _ => Returned false
      | Thrown e => Thrown e
      end
  end.

(** [data?.images && data.images.length > 0] as the [if] of line 25 sees
    it; the comparison is only reached with a truthy [images]. *)
Definition has_image (w : World) (data : value) : outcome bool :=
  if truthy (optional_images data)
  then greater_than_zero w (length_of (optional_images data))
  else Returned false.

(** [images[0]] *)
Definition first_of (images : value) : outcome value :=
  match images with
  | None => Thrown (TypeError_read "undefined" "0")
  | Some JNull => Thrown (TypeError_read "null" "0")
  | Some (JArr items) => Returned (nth_error items 0)
  | Some (JStr s) => Returned (match s with c :: _ => Some (JStr [c]) | [] => None end)
  | Some (JObj fields) => Returned (lookup (lit "0") fields)
  | Some _ => Returned None
  end.

(** ** Detection pipeline (lines 26-82) *)

Definition default_message : jsstring :=
  lit "Please provide an image for object detection.".

Definition MAGNIFIER : jsstring := [0xD83D; 0xDD0D]%N.   (* U+1F50D *)
Definition CROSS_MARK : jsstring := [0x274C]%N.          (* U+274C *)

(** The template literal of lines 66-72 with its five holes. *)
Definition success_message (count labels uid count' labels' : jsstring) : jsstring :=
  MAGNIFIER ++ lit " **Object Detection Results**" ++ [LF] ++
  [LF] ++
  lit "**Detection Count:** " ++ count ++ [LF] ++
  lit "**Detected Objects:** " ++ labels ++ [LF] ++
  lit "**Prediction ID:** " ++ uid ++ [LF] ++
  [LF] ++
  lit "I've analyzed your image and detected " ++ count' ++
  lit " object(s). The detected objects include: " ++ labels' ++ lit ".".

Definition error_header : jsstring :=
  CROSS_MARK ++ lit " **Object Detection Error**".

Definition service_hint : jsstring :=
  lit "Please make sure the object detection service is running on localhost:8080.".

(** [error instanceof Error ? error.message : 'Unknown error'] *)
Definition error_text (error : thrown) : jsstring :=
  match error with
  | ErrorInstance message => message
  | NonError _ => lit "Unknown error"
  end.

Definition error_message (error : thrown) : jsstring :=
  error_header ++ [LF] ++
  [LF] ++
  lit "Sorry, I encountered an error while processing your image: " ++
  error_text error ++ [LF] ++
  [LF] ++
  service_hint.

(** [predictionResult.labels.join(', ')] *)
Definition labels_joined (w : World) (predictionResult : json) : outcome jsstring :=
  match get (Some predictionResult) "labels" with
  | Thrown e => Thrown e
  | Returned None => Thrown (TypeError_read "undefined" "join")
  | Returned (Some JNull) => Thrown (TypeError_read "null" "join")
  | Returned (Some (JArr items)) => join_items w (lit ", ") items
  | Returned (Some _) => Thrown (TypeError_not_a_function "predictionResult.labels.join")
  end.

(** [predictionResult.prop] in a template hole. *)
Definition field_text (w : World) (predictionResult : json) (prop : string)
  : outcome jsstring :=
  match get (Some predictionResult) prop with
  | Thrown e => Thrown e
  | Returned v => interpolate w v
  end.

(** [process.env.NAME] in a template hole. *)
Definition env_text (v : option jsstring) : jsstring := string_or_undefined v.

(** Lines 28-55: from the image URL to the answer of the detection
    service. *)
Definition request_prediction (w : World) (data : value) : M fetch_response :=
  images <- lift (get data "images") ;;
  imageUrl <- lift (first_of images) ;;
  response <- lift (fetch w imageUrl HttpGet) ;;
  buffer <- lift (blob_bytes response) ;;
  let fileKey := lit "uploads/" ++ decimal_N (Date_now w) ++ lit "-image.jpeg" in
  lift (s3_send w {| Bucket := env_S3_BUCKET_NAME w; Key := fileKey;
                     Body := buffer; ContentType := lit "image/jpeg" |}) ;;;
  encodedKey <- lift (encodeURIComponent fileKey) ;;
  lift (fetch w
          (Some (JStr (lit "http://" ++ env_text (env_YOLO_SERVICE w) ++
                       lit "/predict?img=" ++ encodedKey)))
          HttpPost).

(** Lines 66-72: the five holes are evaluated from left to right. *)
Definition format_result (w : World) (predictionResult : json) : M jsstring :=
  count <- lift (field_text w predictionResult "detection_count") ;;
  labels <- lift (labels_joined w predictionResult) ;;
  uid <- lift (field_text w predictionResult "prediction_uid") ;;
  count' <- lift (field_text w predictionResult "detection_count") ;;
  labels' <- lift (labels_joined w predictionResult) ;;
  ret (success_message count labels uid count' labels').

(** The body of the [try] block; its value is the string assigned to
    [message] on line 66. *)
Definition try_block (w : World) (data : value) : M jsstring :=
  predictionResponse <- request_prediction w data ;;
  if negb (ok predictionResponse) then
    throw (ErrorInstance
             (lit "Prediction API error: " ++ decimal_N (status predictionResponse)))
  else
    predictionResult <- lift (json_body predictionResponse) ;;
    format_result w predictionResult.

(** The [catch] block. *)
Definition catch_block (error : thrown) : M jsstring :=
  console_error (lit "Object detection error:") error ;;;
  ret (error_message error).

(** Lines 26-82: the [try] statement with its [catch]. *)
Definition detection_pipeline (w : World) (data : value) : M jsstring :=
  try_catch (try_block w data) catch_block.

(** Lines 22-83: the value of [message] when the stream is built.  The test
    of line 25 stands before the [try]: what it throws leaves the handler. *)
Definition response_message (w : World) (data : value) : M jsstring :=
  passes <- lift (has_image w data) ;;
  if passes then detection_pipeline w data else ret default_message.

(** ** Stream framer (lines 86-117) *)

(** A [ReadableStreamDefaultController]: the chunks enqueued so far and
    whether [close()] was called. *)
Record controller := {
  queue : list (list byte);
  closed : bool
}.

Definition new_controller : controller := {| queue := []; closed := false |}.

Definition stream_closed_error : thrown :=
  ErrorInstance (lit "Invalid state: Controller is already closed").

Definition enqueue (chunk : list byte) (ctl : controller) : M controller :=
  if closed ctl then throw stream_closed_error
  else ret {| queue := queue ctl ++ [chunk]; closed := false |}.

Definition close (ctl : controller) : M controller :=
  if closed ctl then throw stream_closed_error
  else ret {| queue := queue ctl; closed := true |}.

(** [for (let i = start; i < start + count; i++) body]: the loop of line 94
    is [for_loop (length lines) 0]. *)
Fixpoint for_loop {S : Type} (count i : nat) (body : nat -> S -> M S) (s : S) : M S :=
  match count with
  | O => ret s
  | Datatypes.S count' => s' <- body i s ;; for_loop count' (Datatypes.S i) body s'
  end.

(** Lines 95-97: [lines[i]], with the newline back except on the last line. *)
Definition content_of (lines : list jsstring) (i : nat) : option jsstring :=
  let line := nth_error lines i in
  if (Z.of_nat i <? Z.of_nat (length lines) - 1)%Z
  then Some (string_or_undefined line ++ [LF])
  else line.

(** A record of the data stream protocol, [tag:json] and a newline. *)
Definition record_text (tag : string) (payload : value) : jsstring :=
  lit tag ++ lit ":" ++ stringify_in_template payload ++ [LF].

Definition content_chunk (lines : list jsstring) (i : nat) : list byte :=
  TextEncoder_encode (record_text "0" (option_map JStr (content_of lines i))).

Definition usage (message : jsstring) : json :=
  JObj [(lit "promptTokens", JNum 10);
        (lit "completionTokens", JNum (Z.of_nat (length message)))].

Definition finish_event (message : jsstring) : json :=
  JObj [(lit "finishReason", JStr (lit "stop"));
        (lit "usage", usage message);
        (lit "isContinued", JBool false)].

Definition done_event (message : jsstring) : json :=
  JObj [(lit "finishReason", JStr (lit "stop"));
        (lit "usage", usage message)].

(** The [start(controller)] callback. *)
Definition start (message : jsstring) (ctl : controller) : M controller :=
  let lines := split_on LF message in
  ctl <- for_loop (length lines) 0
           (fun i ctl => enqueue (content_chunk lines i) ctl) ctl ;;
  ctl <- enqueue (TextEncoder_encode (record_text "e" (Some (finish_event message)))) ctl ;;
  ctl <- enqueue (TextEncoder_encode (record_text "d" (Some (done_event message)))) ctl ;;
  close ctl.

Record Response := {
  body : controller;
  headers : list (jsstring * jsstring)
}.

Definition response_headers : list (jsstring * jsstring) :=
  [(lit "Content-Type", lit "text/plain; charset=utf-8");
   (lit "X-Vercel-AI-Data-Stream", lit "v1")].

(** ** The handler *)

(** Lines 13-19: the parsed body taken apart and the conversation cleaned. *)
Definition normalize (body : json) : M (list json * value * value) :=
  fields <- lift (destructure_body body) ;;
  let '(messages, selectedModel, data) := fields in
  cleaned <- cleanedMessages messages ;;
  ret (cleaned, selectedModel, data).

Definition POST (w : World) (req_json : outcome json) : M Response :=
  parsed <- lift req_json ;;
  normalized <- normalize parsed ;;
  let '(cleaned, selectedModel, data) := normalized in
  message <- response_message w data ;;
  stream <- start message new_controller ;;
  ret {| body := stream; headers := response_headers |}.

(** ** The reading side of the wire format

    What a client of the data stream does with a chunk: decode the UTF-8
    bytes, take the tag, and parse the JSON string literal of a content
    record.  These follow the wire format, not the handler; the round trip
    below compares them with what [start] emits. *)

Definition is_continuation (n : N) : bool := ((0x80 <=? n) && (n <=? 0xBF))%N.

Definition utf16_of_code_point (cp : N) : jsstring :=
  if (cp <? 0x10000)%N then [cp]
  else [0xD800 + (cp - 0x10000) / 1024; 0xDC00 + (cp - 0x10000) mod 1024]%N.

Definition prepend (prefix : jsstring) (tail : option jsstring) : option jsstring :=
  option_map (app prefix) tail.

(** A strict UTF-8 decoder: [None] on a malformed sequence. *)
Fixpoint TextDecoder_decode (bytes : list byte) : option jsstring :=
  match bytes with
  | [] => Some []
  | b0 :: r0 =>
      let n0 := Byte.to_N b0 in
      if (n0 <? 0x80)%N then prepend [n0] (TextDecoder_decode r0)
      else if (n0 <? 0xC0)%N then None
      else if (n0 <? 0xE0)%N then
        match r0 with
        | b1 :: r1 =>
            let n1 := Byte.to_N b1 in
            if is_continuation n1
            then prepend (utf16_of_code_point ((n0 - 0xC0) * 64 + (n1 - 0x80)))
                         (TextDecoder_decode r1)
            else None
        | _ => None
        end
      else if (n0 <? 0xF0)%N then
        match r0 with
        | b1 :: b2 :: r2 =>
            let n1 := Byte.to_N b1 in
            let n2 := Byte.to_N b2 in
            if is_continuation n1 && is_continuation n2
            then prepend (utf16_of_code_point
                            ((n0 - 0xE0) * 4096 + (n1 - 0x80) * 64 + (n2 - 0x80)))
                         (TextDecoder_decode r2)
            else None
        | _ => None
        end
      else if (n0 <? 0xF8)%N then
        match r0 with
        | b1 :: b2 :: b3 :: r3 =>
            let n1 := Byte.to_N b1 in
            let n2 := Byte.to_N b2 in
            let n3 := Byte.to_N b3 in
            if is_continuation n1 && is_continuation n2 && is_continuation n3
            then prepend (utf16_of_code_point
                            ((n0 - 0xF0) * 262144 + (n1 - 0x80) * 4096 +
                             (n2 - 0x80) * 64 + (n3 - 0x80)))
                         (TextDecoder_decode r3)
            else None
        | _ => None
        end
      else None
  end.

Definition hex_value (c : char16) : option N :=
  if ((48 <=? c) && (c <=? 57))%N then Some (c - 48)%N
  else if ((97 <=? c) && (c <=? 102))%N then Some (c - 87)%N
  else if ((65 <=? c) && (c <=? 70))%N then Some (c - 55)%N
  else None.

(** The character after a backslash, [u] apart. *)
Definition simple_escape (e : char16) : option char16 :=
  if (e =? 34)%N then Some 34%N
  else if (e =? 92)%N then Some 92%N
  else if (e =? 47)%N then Some 47%N
  else if (e =? 98)%N then Some 8%N
  else if (e =? 102)%N then Some 12%N
  else if (e =? 110)%N then Some 10%N
  else if (e =? 114)%N then Some 13%N
  else if (e =? 116)%N then Some 9%N
  else None.

(** The characters of a JSON string literal after its opening quote, up to
    the closing quote that must end the text. *)
Fixpoint parse_string_body (s : jsstring) : option jsstring :=
  match s with
  | [] => None
  | c :: rest =>
      if (c =? 34)%N then match rest with [] => Some [] | _ => None end
      else if (c =? 92)%N then
        match rest with
        | e :: rest' =>
            if (e =? 117)%N then
              match rest' with
              | h3 :: h2 :: h1 :: h0 :: rest'' =>
                  match hex_value h3, hex_value h2, hex_value h1, hex_value h0 with
                  | Some d3, Some d2, Some d1, Some d0 =>
                      prepend [((d3 * 16 + d2) * 16 + d1) * 16 + d0]%N
                              (parse_string_body rest'')
                  | _, _, _, _ => None
                  end
              | _ => None
              end
            else
              match simple_escape e with
              | Some c' => prepend [c'] (parse_string_body rest')
              | None => None
              end
        | [] => None
        end
      else if (c <? 32)%N then None
      else prepend [c] (parse_string_body rest)
  end.

(** [JSON.parse] of a text that is one string literal. *)
Definition JSON_parse_string (text : jsstring) : option jsstring :=
  match text with
  | c :: rest => if (c =? 34)%N then parse_string_body rest else None
  | [] => None
  end.

(** The tag of a record: the byte before the colon. *)
Definition tag_of (chunk : list byte) : option byte :=
  match chunk with
  | t :: x3a :: _ => Some t
  | _ => None
  end.

Definition TAG_CONTENT : byte := x30.   (* 0 *)
Definition TAG_FINISH : byte := x65.    (* e *)
Definition TAG_DONE : byte := x64.      (* d *)

Definition has_tag (t : byte) (chunk : list byte) : bool :=
  match tag_of chunk with
  | Some t' => Byte.eqb t t'
  | None => false
  end.

Definition strip_final_LF (s : jsstring) : option jsstring :=
  match rev s with
  | c :: r => if (c =? 10)%N then Some (rev r) else None
  | [] => None
  end.

(** The decoded content of a [0:] record. *)
Definition read_content (chunk : list byte) : option jsstring :=
  match TextDecoder_decode chunk with
  | Some (t :: colon :: payload) =>
      if ((t =? 48) && (colon =? 58))%N then
        match strip_final_LF payload with
        | Some text => JSON_parse_string text
        | None => None
        end
      else None
  | _ => None
  end.

Fixpoint read_all (chunks : list (list byte)) : option (list jsstring) :=
  match chunks with
  | [] => Some []
  | chunk :: rest =>
      match read_content chunk, read_all rest with
      | Some content, Some contents => Some (content :: contents)
      | _, _ => None
      end
  end.

(** What the client has assembled once the stream is closed. *)
Definition reassemble (stream : controller) : option jsstring :=
  option_map (@List.concat char16)
    (read_all (List.filter (has_tag TAG_CONTENT) (queue stream))).

(** ** Vocabulary of the statements *)

Definition finish_chunk (message : jsstring) : list byte :=
  TextEncoder_encode (record_text "e" (Some (finish_event message))).

Definition done_chunk (message : jsstring) : list byte :=
  TextEncoder_encode (record_text "d" (Some (done_event message))).

Definition content_chunks (message : jsstring) : list (list byte) :=
  let lines := split_on LF message in
  List.map (content_chunk lines) (List.seq 0 (length lines)).

(** A member of a payload object. *)
Definition member (k : string) (v : value) : value :=
  match v with
  | Some (JObj fields) => lookup (lit k) fields
  | _ => None
  end.

Definition quoted (s : string) : jsstring := DQUOTE :: lit s ++ [DQUOTE].


(** [part] occurs in [whole], untruncated. *)
Definition contains (part whole : jsstring) : Prop :=
  exists before after, whole = before ++ part ++ after.

(** The lines of a message as the framer sends them: each with its newline
    back, the last one bare. *)
Fixpoint with_newlines (lines : list jsstring) : list jsstring :=
  match lines with
  | [] => []
  | [line] => [line]
  | line :: rest => (line ++ [LF]) :: with_newlines rest
  end.

(** A string of proper code units: each below 2^16. *)
Definition code_units (s : jsstring) : Prop := Forall (fun c => (c < 65536)%N) s.

(** No surrogate without its partner. *)
Fixpoint well_formed (s : jsstring) : bool :=
  match s with
  | [] => true
  | c :: rest =>
      if is_high_surrogate c then
        match rest with
        | d :: rest' => is_low_surrogate d && well_formed rest'
        | [] => false
        end
      else negb (is_low_surrogate c) && (c <? 65536)%N && well_formed rest
  end.

(** The error thrown on line 59 for a rejected prediction. *)
Definition rejection_error (predictionResponse : fetch_response) : thrown :=
  ErrorInstance (lit "Prediction API error: " ++ decimal_N (status predictionResponse)).

(** What line 76 leaves on the console. *)
Definition logged (error : thrown) : jsstring * thrown :=
  (lit "Object detection error:", error).

(** No image reference in the auxiliary data: [data?.images] is [undefined]
    (no data, or no images member), or it is the empty list. *)
Definition no_image_reference (data : value) : Prop :=
  optional_images data = None \/ optional_images data = Some (JArr []).

(** The answer built from a response message. *)
Definition response_for (message : jsstring) : Response :=
  {| body := {| queue := content_chunks message ++
                         [finish_chunk message; done_chunk message];
                closed := true |};
     headers := response_headers |}.

(** ** Sample inputs *)

Definition sample_result : json :=
  JObj [(lit "detection_count", JNum 2);
        (lit "labels", JArr [JStr (lit "cat"); JStr (lit "dog")]);
        (lit "prediction_uid", JStr (lit "abc123"))].

Definition image_response : fetch_response :=
  {| status := 200; blob_bytes := Returned [xff; xd8];
     json_body := Thrown (ErrorInstance (lit "Unexpected token")) |}.

(** A world in which the detection service answers [status] and, on
    success, [sample_result].  Its engine prints a number beyond the safe
    integers as V8 prints 10^21, the only such number of the examples. *)
Definition sample_world (service_status : N) : World :=
  {| env_S3_BUCKET_NAME := Some (lit "bucket");
     env_YOLO_SERVICE := Some (lit "yolo:8080");
     Date_now := 1700000000000;
     fetch := fun _ method =>
       match method with
       | HttpGet => Returned image_response
       | HttpPost => Returned {| status := service_status;
                                 blob_bytes := Returned [];
                                 json_body := Returned sample_result |}
       end;
     s3_send := fun _ => Returned tt;
     string_number_positive := fun _ => false;
     number_text := fun _ => lit "1e+21" |}.

(** A world in which the image cannot be fetched and the rejection is not
    an [Error]. *)
Definition offline_world : World :=
  {| env_S3_BUCKET_NAME := None;
     env_YOLO_SERVICE := None;
     Date_now := 0;
     fetch := fun _ _ => Thrown (NonError (Some (JStr (lit "offline"))));
     s3_send := fun _ => Returned tt;
     string_number_positive := fun _ => false;
     number_text := fun _ => lit "1e+21" |}.

Definition sample_data_object : json :=
  JObj [(lit "images", JArr [JStr (lit "http://x/img.jpg")])].

Definition sample_data : value := Some sample_data_object.

Definition sample_message_record : list (jsstring * json) :=
  [(lit "role", JStr (lit "user"));
   (lit "experimental_attachments", JArr [JObj [(lit "url", JStr (lit "http://x/img.jpg"))]]);
   (lit "content", JStr (lit "what is this?"))].

(** ** Vocabulary for the steps of the pipeline *)

(** The URL handed to the first [fetch]: [data.images[0]]. *)
Definition image_url (data : value) : value :=
  match first_of (optional_images data) with
  | Returned url => url
  | Thrown _ => None
  end.

(** Lines 31-34: the image bytes, or what the download threw. *)
Definition download (w : World) (data : value) : outcome (list byte) :=
  match fetch w (image_url data) HttpGet with
  | Returned response => blob_bytes response
  | Thrown e => Thrown e
  end.

(** [fileKey] of line 37. *)
Definition file_key (w : World) : jsstring :=
  lit "uploads/" ++ decimal_N (Date_now w) ++ lit "-image.jpeg".

(** The command of lines 40-47. *)
Definition upload_command (w : World) (buffer : list byte) : PutObjectCommand :=
  {| Bucket := env_S3_BUCKET_NAME w; Key := file_key w;
     Body := buffer; ContentType := lit "image/jpeg" |}.

(** The address of line 51 once the key is percent-encoded. *)
Definition prediction_url (w : World) : jsstring :=
  lit "http://" ++ env_text (env_YOLO_SERVICE w) ++ lit "/predict?img=" ++
  lit "uploads%2F" ++ decimal_N (Date_now w) ++ lit "-image.jpeg".

(** The same world, except that every image download answers with [code]. *)
Definition with_image_status (code : N) (w : World) : World :=
  {| env_S3_BUCKET_NAME := env_S3_BUCKET_NAME w;
     env_YOLO_SERVICE := env_YOLO_SERVICE w;
     Date_now := Date_now w;
     fetch := fun url method =>
       match method, fetch w url method with
       | HttpGet, Returned response =>
           Returned {| status := code; blob_bytes := blob_bytes response;
                       json_body := json_body response |}
       | _, answer => answer
       end;
     s3_send := s3_send w;
     string_number_positive := string_number_positive w;
     number_text := number_text w |}.

(** The text of every record of a response, in order. *)
Definition record_texts (message : jsstring) : list jsstring :=
  List.map (fun content => record_text "0" (Some (JStr content)))
           (with_newlines (split_on LF message))
  ++ [record_text "e" (Some (finish_event message));
      record_text "d" (Some (done_event message))].

(** How many newlines a message holds. *)
Definition newlines (message : jsstring) : nat :=
  length (List.filter (N.eqb LF) message).

Definition is_digit (c : char16) : bool := ((48 <=? c) && (c <=? 57))%N.

(** A world in which the image is there, the upload ends as [upload] and the
    detection service gives [answer]. *)
Definition scripted_world (upload : outcome unit) (answer : fetch_response) : World :=
  {| env_S3_BUCKET_NAME := Some (lit "bucket");
     env_YOLO_SERVICE := Some (lit "yolo:8080");
     Date_now := 1700000000000;
     fetch := fun _ method =>
       match method with
       | HttpGet => Returned image_response
       | HttpPost => Returned answer
       end;
     s3_send := fun _ => upload;
     string_number_positive := fun _ => false;
     number_text := fun _ => lit "1e+21" |}.

Definition answer_with (body_json : outcome json) : fetch_response :=
  {| status := 200; blob_bytes := Returned []; json_body := body_json |}.

(** A text without a raw newline. *)
Definition no_newline (t : jsstring) : bool :=
  forallb (fun c => negb (N.eqb c LF)) t.

(** A text of characters below the surrogates. *)
Definition below_surrogates (t : jsstring) : bool :=
  forallb (fun c => (c <? 0xD800)%N) t.

(** A chunk that is one line of the wire: no newline byte but the last. *)
Definition one_line (chunk : list byte) : Prop :=
  exists line, chunk = line ++ [x0a] /\ ~ In x0a line.

(** Whether [ToString] has a text for a parsed value: no object with a
    member of its own named [toString], at the top or among the elements of
    an array, however nested. *)
Fixpoint converts (v : json) : bool :=
  match v with
  | JArr items => forallb (fun x => converts x) items
  | JObj fields =>
      match lookup (lit "toString") fields with
      | Some _ => false
      | None => true
      end
  | _ => true
  end.

Definition value_converts (v : value) : bool :=
  match v with
  | None => true
  | Some x => converts x
  end.

(** The answer to a request once its body is normalised (lines 22-125). *)
Definition answer (w : World) (data : value) : M Response :=
  message <- response_message w data ;;
  stream <- start message new_controller ;;
  ret {| body := stream; headers := response_headers |}.

(** Why the handler can throw: the body did not parse, the normaliser threw,
    or the comparison of line 25 did. *)
Definition rejection (w : World) (req_json : outcome json) (c : console) (e : thrown)
  : Prop :=
  req_json = Thrown e
  \/ (exists body, req_json = Returned body /\ normalize body c = (Thrown e, c))
  \/ (exists body cleaned selectedModel data,
        req_json = Returned body
        /\ normalize body c = (Returned (cleaned, selectedModel, data), c)
        /\ has_image w data = Thrown e).

(** * Properties *)

(** ** The runtime on small inputs *)

Example split_keeps_blank_lines :
  split_on LF (lit "a" ++ [LF; LF] ++ lit "b") = [lit "a"; []; lit "b"].
Proof. reflexivity. Qed.

Example split_of_empty : split_on LF [] = [[]].
Proof. reflexivity. Qed.

Example magnifier_has_length_two : length (MAGNIFIER ++ lit " ok") = 5.
Proof. reflexivity. Qed.

Example stringify_escapes_newline :
  stringify (JStr (MAGNIFIER ++ [LF])) = [DQUOTE] ++ MAGNIFIER ++ [BACKSLASH; 110%N; DQUOTE].
Proof. reflexivity. Qed.

Example stringify_escapes_lone_surrogate :
  stringify (JStr [0xD83D%N]) = [DQUOTE; BACKSLASH] ++ lit "ud83d" ++ [DQUOTE].
Proof. reflexivity. Qed.

Example encode_magnifier :
  TextEncoder_encode MAGNIFIER = [xf0; x9f; x94; x8d].
Proof. reflexivity. Qed.

Example encode_file_key :
  encodeURIComponent (lit "uploads/1700000000000-image.jpeg") =
  Returned (lit "uploads%2F1700000000000-image.jpeg").
Proof. reflexivity. Qed.

Example join_of_mixed_labels :
  labels_joined (sample_world 200)
                (JObj [(lit "labels", JArr [JStr (lit "cat"); JNull; JNum 3])]) =
  Returned (lit "cat, , 3").
Proof. reflexivity. Qed.

Example largest_safe_integer_in_digits :
  to_string (sample_world 200) (JNum (2 ^ 53)) = Returned (lit "9007199254740992").
Proof. reflexivity. Qed.

Example large_number_by_the_engine :
  to_string (sample_world 200) (JNum (10 ^ 21)) = Returned (lit "1e+21").
Proof. reflexivity. Qed.

Example object_with_own_toString_does_not_convert :
  to_string (sample_world 200)
            (JArr [JNum 1; JObj [(lit "toString", JNum 0)]; JObj []]) =
  Thrown TypeError_primitive.
Proof. reflexivity. Qed.

Example test_of_line_25_can_throw :
  has_image (sample_world 200)
            (Some (JObj [(lit "images",
                          JObj [(lit "length", JObj [(lit "toString", JNum 0)])])])) =
  Thrown TypeError_primitive.
Proof. reflexivity. Qed.

Example empty_message_stream :
  start [] new_controller [] =
  (Returned {| queue := [[x30; x3a; x22; x22; x0a]; finish_chunk []; done_chunk []];
               closed := true |}, []).
Proof. reflexivity. Qed.

Example rejected_by_service :
  response_message (sample_world 500) sample_data [] =
  (Returned (CROSS_MARK ++ lit " **Object Detection Error**" ++ [LF; LF] ++
             lit "Sorry, I encountered an error while processing your image: Prediction API error: 500" ++
             [LF; LF] ++
             lit "Please make sure the object detection service is running on localhost:8080."),
   [logged (ErrorInstance (lit "Prediction API error: 500"))]).
Proof. reflexivity. Qed.

(** ** The framer as a producer of chunks *)

Lemma for_loop_enqueue (f : nat -> list byte) (n : nat) :
  forall i ctl c,
    closed ctl = false ->
    for_loop n i (fun i ctl => enqueue (f i) ctl) ctl c =
    (Returned {| queue := queue ctl ++ List.map f (List.seq i n); closed := false |}, c).
Proof.
  induction n as [|n IH]; intros i ctl c Hopen; simpl.
  - rewrite app_nil_r. destruct ctl as [q cl]; simpl in *; subst; reflexivity.
  - unfold bind at 1. unfold enqueue at 1. rewrite Hopen. unfold ret at 1.
    rewrite IH by reflexivity. simpl. rewrite <- app_assoc. reflexivity.
Qed.

Lemma start_emits (message : jsstring) (c : console) :
  start message new_controller c =
  (Returned {| queue := content_chunks message ++ [finish_chunk message; done_chunk message];
               closed := true |}, c).
Proof.
  unfold start, bind. rewrite for_loop_enqueue by reflexivity.
  unfold enqueue, close, ret; simpl.
  rewrite <- app_assoc. reflexivity.
Qed.

Lemma split_on_not_nil (sep : char16) (s : jsstring) : split_on sep s <> [].
Proof.
  destruct s as [|c rest]; simpl; [discriminate|].
  destruct (N.eqb c sep); [discriminate|].
  destruct (split_on sep rest); discriminate.
Qed.

Lemma content_chunk_tag (lines : list jsstring) (i : nat) :
  tag_of (content_chunk lines i) = Some TAG_CONTENT.
Proof.
  unfold content_chunk, record_text.
  destruct (content_of lines i); reflexivity.
Qed.

Lemma content_chunks_tagged (message : jsstring) :
  Forall (fun chunk => tag_of chunk = Some TAG_CONTENT) (content_chunks message).
Proof.
  unfold content_chunks. apply Forall_forall. intros chunk Hin.
  apply in_map_iff in Hin. destruct Hin as [i [<- _]]. apply content_chunk_tag.
Qed.

Lemma content_chunks_length (message : jsstring) :
  length (content_chunks message) = length (split_on LF message).
Proof. unfold content_chunks. rewrite length_map, length_seq. reflexivity. Qed.

Lemma finish_chunk_tag (message : jsstring) :
  tag_of (finish_chunk message) = Some TAG_FINISH.
Proof. reflexivity. Qed.

Lemma done_chunk_tag (message : jsstring) :
  tag_of (done_chunk message) = Some TAG_DONE.
Proof. reflexivity. Qed.

Lemma filter_tag_none (t : byte) (chunks : list (list byte)) :
  t <> TAG_CONTENT ->
  Forall (fun chunk => tag_of chunk = Some TAG_CONTENT) chunks ->
  List.filter (has_tag t) chunks = [].
Proof.
  intros Hne Hall. induction Hall as [|chunk rest Htag _ IH]; simpl; [reflexivity|].
  unfold has_tag at 1. rewrite Htag.
  destruct (Byte.eqb t TAG_CONTENT) eqn:E; [|exact IH].
  apply Byte.byte_dec_bl in E. contradiction.
Qed.

Lemma filter_tag_all (chunks : list (list byte)) :
  Forall (fun chunk => tag_of chunk = Some TAG_CONTENT) chunks ->
  List.filter (has_tag TAG_CONTENT) chunks = chunks.
Proof.
  intros Hall. induction Hall as [|chunk rest Htag _ IH]; simpl; [reflexivity|].
  unfold has_tag at 1. rewrite Htag. simpl. rewrite IH. reflexivity.
Qed.

Lemma finish_event_text (message : jsstring) :
  stringify (finish_event message) =
  lit "{" ++ quoted "finishReason" ++ lit ":" ++ quoted "stop" ++ lit "," ++
  quoted "usage" ++ lit ":{" ++ quoted "promptTokens" ++ lit ":10," ++
  quoted "completionTokens" ++ lit ":" ++ decimal_Z (Z.of_nat (length message)) ++
  lit "}," ++ quoted "isContinued" ++ lit ":false}".
Proof.
  unfold finish_event, usage. simpl. rewrite <- !app_assoc. reflexivity.
Qed.

Lemma done_event_text (message : jsstring) :
  stringify (done_event message) =
  lit "{" ++ quoted "finishReason" ++ lit ":" ++ quoted "stop" ++ lit "," ++
  quoted "usage" ++ lit ":{" ++ quoted "promptTokens" ++ lit ":10," ++
  quoted "completionTokens" ++ lit ":" ++ decimal_Z (Z.of_nat (length message)) ++
  lit "}}".
Proof.
  unfold done_event, usage. simpl. rewrite <- !app_assoc. reflexivity.
Qed.

(** ** Property names and the rest pattern *)

Lemma str_eqb_eq (a b : jsstring) : str_eqb a b = true <-> a = b.
Proof.
  revert b. induction a as [|x a IH]; intros [|y b]; simpl; split;
    try discriminate; try reflexivity.
  - intros H. apply andb_true_iff in H. destruct H as [Hx Hab].
    apply N.eqb_eq in Hx. apply IH in Hab. subst. reflexivity.
  - intros H. injection H as -> ->. rewrite N.eqb_refl. apply IH. reflexivity.
Qed.

Lemma str_eqb_neq (a b : jsstring) : str_eqb a b = false <-> a <> b.
Proof.
  split.
  - intros H E. apply str_eqb_eq in E. congruence.
  - intros H. destruct (str_eqb a b) eqn:E; [|reflexivity].
    apply str_eqb_eq in E. contradiction.
Qed.

Lemma lookup_without (k a : jsstring) (fields : list (jsstring * json)) :
  lookup k (without a fields) = if str_eqb k a then None else lookup k fields.
Proof.
  induction fields as [|[k' v] rest IH]; simpl.
  - destruct (str_eqb k a); reflexivity.
  - destruct (str_eqb k' a) eqn:Hk'a; simpl.
    + apply str_eqb_eq in Hk'a. subst k'. rewrite IH.
      destruct (str_eqb k a); reflexivity.
    + rewrite IH. destruct (str_eqb k a) eqn:Hka; [|reflexivity].
      apply str_eqb_eq in Hka. subst k.
      destruct (str_eqb a k') eqn:Hak'; [|reflexivity].
      apply str_eqb_eq in Hak'. subst k'.
      apply str_eqb_neq in Hk'a. contradiction.
Qed.

(** ** The conversation is cleaned, or the handler throws *)

Lemma cleanMessage_returns (message : json) :
  message <> JNull ->
  cleanMessage message = Returned (JObj (without ATTACHMENTS (own_properties message))).
Proof. destruct message; intros H; try reflexivity. contradiction. Qed.

Lemma mapM_cleanMessage (items : list json) (c : console) :
  Forall (fun message => message <> JNull) items ->
  mapM (fun message => lift (cleanMessage message)) items c =
  (Returned (List.map (fun message => JObj (without ATTACHMENTS (own_properties message)))
                      items), c).
Proof.
  intros Hall. induction Hall as [|message rest Hmessage _ IH]; simpl; [reflexivity|].
  unfold bind at 1. unfold lift at 1. rewrite (cleanMessage_returns _ Hmessage).
  unfold bind at 1. rewrite IH. reflexivity.
Qed.

Lemma normalize_returns (fields : list (jsstring * json)) (items : list json) (c : console) :
  lookup (lit "messages") fields = Some (JArr items) ->
  Forall (fun message => message <> JNull) items ->
  normalize (JObj fields) c =
  (Returned (List.map (fun message => JObj (without ATTACHMENTS (own_properties message)))
                      items,
             lookup (lit "selectedModel") fields,
             lookup (lit "data") fields), c).
Proof.
  intros Hmessages Hall. unfold normalize, bind, lift, destructure_body.
  rewrite Hmessages. unfold cleanedMessages.
  rewrite (mapM_cleanMessage _ c Hall). reflexivity.
Qed.

(** ** The message is always produced *)

Section Pipeline.

Variable w : World.
Variable data : value.

Lemma detection_pipeline_returns (c : console) :
  exists message c', detection_pipeline w data c = (Returned message, c').
Proof.
  unfold detection_pipeline, try_catch.
  destruct (try_block w data c) as [[message|error] c1].
  - exists message, c1. reflexivity.
  - exists (error_message error), (c1 ++ [logged error]). reflexivity.
Qed.

Lemma response_message_enters (c : console) :
  has_image w data = Returned true ->
  response_message w data c = detection_pipeline w data c.
Proof. intros H. unfold response_message, bind, lift. rewrite H. reflexivity. Qed.

Lemma response_message_no_image (c : console) :
  has_image w data = Returned false ->
  response_message w data c = (Returned default_message, c).
Proof. intros H. unfold response_message, bind, lift. rewrite H. reflexivity. Qed.

Lemma response_message_thrown (c : console) (e : thrown) :
  has_image w data = Thrown e ->
  response_message w data c = (Thrown e, c).
Proof. intros H. unfold response_message, bind, lift. rewrite H. reflexivity. Qed.

Lemma response_message_caught (c c1 : console) (error : thrown) :
  has_image w data = Returned true ->
  try_block w data c = (Thrown error, c1) ->
  response_message w data c = (Returned (error_message error), c1 ++ [logged error]).
Proof.
  intros Himage Hthrown. rewrite response_message_enters by assumption.
  unfold detection_pipeline, try_catch. rewrite Hthrown. reflexivity.
Qed.

Lemma response_message_passed (c c1 : console) (message : jsstring) :
  has_image w data = Returned true ->
  try_block w data c = (Returned message, c1) ->
  response_message w data c = (Returned message, c1).
Proof.
  intros Himage Hreturned. rewrite response_message_enters by assumption.
  unfold detection_pipeline, try_catch. rewrite Hreturned. reflexivity.
Qed.

Lemma response_message_returns (c : console) (passes : bool) :
  has_image w data = Returned passes ->
  exists message c', response_message w data c = (Returned message, c').
Proof.
  intros Himage. destruct passes.
  - rewrite response_message_enters by assumption. apply detection_pipeline_returns.
  - exists default_message, c. apply response_message_no_image; assumption.
Qed.

End Pipeline.

Lemma POST_after_normalize (w : World) (parsed : json) (c c1 c2 : console)
      (cleaned : list json) (selectedModel data : value) (message : jsstring) :
  normalize parsed c = (Returned (cleaned, selectedModel, data), c1) ->
  response_message w data c1 = (Returned message, c2) ->
  POST w (Returned parsed) c = (Returned (response_for message), c2).
Proof.
  intros Hnormalize Hmessage. unfold POST, bind. unfold lift at 1.
  rewrite Hnormalize, Hmessage, start_emits. reflexivity.
Qed.


Lemma contains_trans (a b c : jsstring) : contains a b -> contains b c -> contains a c.
Proof.
  intros [p [q ->]] [r [s ->]]. exists (r ++ p), (q ++ s).
  rewrite <- !app_assoc. reflexivity.
Qed.

Lemma join_strings (w : World) (sep : jsstring) (labels : list jsstring) :
  join_items w sep (List.map JStr labels) = Returned (join sep labels).
Proof.
  unfold join_items.
  assert (H : sequence (List.map (join_element w) (List.map JStr labels)) = Returned labels).
  { induction labels as [|label rest IH]; [reflexivity|].
    cbn [List.map sequence join_element to_string]. rewrite IH. reflexivity. }
  rewrite H. reflexivity.
Qed.

Lemma no_image_reference_fails_the_test (w : World) (data : value) :
  no_image_reference data -> has_image w data = Returned false.
Proof. intros [H | H]; unfold has_image; rewrite H; reflexivity. Qed.


Lemma error_message_text (error : thrown) :
  contains (error_text error) (error_message error).
Proof.
  exists (error_header ++ [LF] ++ [LF] ++
          lit "Sorry, I encountered an error while processing your image: "),
         ([LF] ++ [LF] ++ service_hint).
  unfold error_message. rewrite <- !app_assoc. reflexivity.
Qed.


(** ** A detection result read field by field *)

Lemma format_result_record (w : World) (fields : list (jsstring * json)) (count : Z)
      (labels : list jsstring) (uid : jsstring) (c : console) :
  safe_integer count = true ->
  lookup (lit "detection_count") fields = Some (JNum count) ->
  lookup (lit "labels") fields = Some (JArr (List.map JStr labels)) ->
  lookup (lit "prediction_uid") fields = Some (JStr uid) ->
  format_result w (JObj fields) c =
  (Returned (success_message (decimal_Z count) (join (lit ", ") labels) uid
                             (decimal_Z count) (join (lit ", ") labels)), c).
Proof.
  intros Hsafe Hcount Hlabels Huid.
  unfold format_result, bind, lift, field_text, labels_joined, get.
  rewrite Hcount, Hlabels, Huid. cbn [interpolate to_string].
  unfold number_to_string. rewrite Hsafe, join_strings. reflexivity.
Qed.

(** ** Lines and their newlines *)

Lemma with_newlines_cons (line : jsstring) (rest : list jsstring) :
  rest <> [] -> with_newlines (line :: rest) = (line ++ [LF]) :: with_newlines rest.
Proof. destruct rest; [contradiction | reflexivity]. Qed.

Lemma concat_with_newlines (s : jsstring) :
  List.concat (with_newlines (split_on LF s)) = s.
Proof.
  induction s as [|ch rest IH]; [reflexivity|].
  pose proof (split_on_not_nil LF rest) as Hne.
  simpl split_on. destruct (N.eqb ch LF) eqn:Hch.
  - apply N.eqb_eq in Hch. subst ch.
    rewrite with_newlines_cons by assumption.
    simpl. rewrite IH. reflexivity.
  - destruct (split_on LF rest) as [|line lines]; [contradiction|].
    destruct lines as [|line' lines].
    + simpl in *. rewrite app_nil_r in *. rewrite IH. reflexivity.
    + rewrite with_newlines_cons by discriminate.
      rewrite with_newlines_cons in IH by discriminate.
      simpl in *. rewrite IH. reflexivity.
Qed.

Lemma content_of_with_newlines (lines pre : list jsstring) :
  List.map (content_of (pre ++ lines)) (List.seq (length pre) (length lines)) =
  List.map Some (with_newlines lines).
Proof.
  revert pre. induction lines as [|line rest IH]; intros pre; [reflexivity|].
  simpl length. simpl List.seq. simpl List.map at 1.
  assert (Hrest : List.map (content_of (pre ++ line :: rest))
                    (List.seq (S (length pre)) (length rest)) =
                  List.map Some (with_newlines rest)).
  { specialize (IH (pre ++ [line])).
    rewrite <- app_assoc, length_app in IH. simpl in IH.
    rewrite Nat.add_1_r in IH. exact IH. }
  rewrite Hrest.
  unfold content_of at 1.
  rewrite nth_error_app2 by lia. rewrite Nat.sub_diag. simpl nth_error.
  rewrite length_app. simpl length.
  destruct rest as [|line' rest'].
  - simpl length. destruct (Z.ltb_spec (Z.of_nat (length pre))
                                        (Z.of_nat (length pre + 1) - 1)); [lia|].
    reflexivity.
  - simpl length. destruct (Z.ltb_spec (Z.of_nat (length pre))
                              (Z.of_nat (length pre + S (S (length rest'))) - 1)); [|lia].
    reflexivity.
Qed.

Lemma content_chunks_with_newlines (message : jsstring) :
  content_chunks message =
  List.map (fun content => TextEncoder_encode (record_text "0" (Some (JStr content))))
           (with_newlines (split_on LF message)).
Proof.
  unfold content_chunks.
  pose proof (content_of_with_newlines (split_on LF message) []) as H.
  simpl in H.
  change (fun i => content_chunk (split_on LF message) i) with
    (fun i => TextEncoder_encode
                (record_text "0" (option_map JStr (content_of (split_on LF message) i)))).
  rewrite <- (map_map (content_of (split_on LF message))
                (fun content => TextEncoder_encode (record_text "0" (option_map JStr content)))).
  rewrite H. rewrite map_map. reflexivity.
Qed.

(** ** A quoted string parses back *)

Ltac to_prop :=
  repeat match goal with
  | H : _ && _ = true |- _ => apply andb_true_iff in H; destruct H
  | H : _ || _ = false |- _ => apply orb_false_iff in H; destruct H
  | H : _ && _ = false |- _ => apply andb_false_iff in H; destruct H
  | H : _ || _ = true |- _ => apply orb_true_iff in H; destruct H
  | H : negb _ = true |- _ => apply negb_true_iff in H
  | H : negb _ = false |- _ => apply negb_false_iff in H
  | H : (_ <=? _)%N = true |- _ => apply N.leb_le in H
  | H : (_ <=? _)%N = false |- _ => apply N.leb_gt in H
  | H : (_ <? _)%N = true |- _ => apply N.ltb_lt in H
  | H : (_ <? _)%N = false |- _ => apply N.ltb_ge in H
  | H : (_ =? _)%N = true |- _ => apply N.eqb_eq in H
  | H : (_ =? _)%N = false |- _ => apply N.eqb_neq in H
  end.

Ltac div_lia := zify; Z.to_euclidean_division_equations; lia.

Lemma surrogate_range (c : char16) :
  is_high_surrogate c = true \/ is_low_surrogate c = true ->
  (0xD800 <= c <= 0xDFFF)%N.
Proof.
  unfold is_high_surrogate, is_low_surrogate. intros [H|H]; to_prop; lia.
Qed.

Lemma hex_value_hex_digit (d : N) :
  (d < 16)%N -> hex_value (hex_digit d) = Some d.
Proof.
  intros H.
  assert (Hd : In d [0; 1; 2; 3; 4; 5; 6; 7; 8; 9; 10; 11; 12; 13; 14; 15]%N).
  { simpl. lia. }
  simpl in Hd.
  repeat (destruct Hd as [<-|Hd]; [reflexivity|]). contradiction.
Qed.

Lemma hex_digit_ascii (d : N) :
  (d < 16)%N -> (48 <= hex_digit d <= 102)%N.
Proof. intros H. unfold hex_digit. destruct (N.ltb_spec d 10); lia. Qed.

Lemma parse_raw (c : char16) (rest : jsstring) :
  c <> 34%N -> c <> 92%N -> (32 <= c)%N ->
  parse_string_body (c :: rest) = prepend [c] (parse_string_body rest).
Proof.
  intros H34 H92 H32. simpl.
  destruct (N.eqb_spec c 34); [contradiction|].
  destruct (N.eqb_spec c 92); [contradiction|].
  destruct (N.ltb_spec c 32); [lia|]. reflexivity.
Qed.

Lemma parse_unicode_escape (c : char16) (rest : jsstring) :
  (c < 65536)%N ->
  parse_string_body (unicode_escape c ++ rest) = prepend [c] (parse_string_body rest).
Proof.
  intros Hc. unfold unicode_escape.
  change (parse_string_body
            ([BACKSLASH; 117%N; hex_digit ((c / 4096) mod 16); hex_digit ((c / 256) mod 16);
              hex_digit ((c / 16) mod 16); hex_digit (c mod 16)] ++ rest))
    with (match hex_value (hex_digit ((c / 4096) mod 16)),
                hex_value (hex_digit ((c / 256) mod 16)),
                hex_value (hex_digit ((c / 16) mod 16)),
                hex_value (hex_digit (c mod 16)) with
          | Some d3, Some d2, Some d1, Some d0 =>
              prepend [((d3 * 16 + d2) * 16 + d1) * 16 + d0]%N (parse_string_body rest)
          | _, _, _, _ => None
          end).
  rewrite !hex_value_hex_digit by (apply N.mod_lt; discriminate).
  replace ((((c / 4096) mod 16 * 16 + (c / 256) mod 16) * 16 + (c / 16) mod 16) * 16
           + c mod 16)%N with c; [reflexivity|].
  div_lia.
Qed.

Lemma parse_quote_unit (c : char16) (rest : jsstring) :
  parse_string_body (quote_unit c ++ rest) = prepend [c] (parse_string_body rest).
Proof.
  unfold quote_unit.
  destruct (N.eqb_spec c 8); [subst; reflexivity|].
  destruct (N.eqb_spec c 9); [subst; reflexivity|].
  destruct (N.eqb_spec c 10); [subst; reflexivity|].
  destruct (N.eqb_spec c 12); [subst; reflexivity|].
  destruct (N.eqb_spec c 13); [subst; reflexivity|].
  destruct (N.eqb_spec c 34); [subst; reflexivity|].
  destruct (N.eqb_spec c 92); [subst; reflexivity|].
  destruct ((c <? 32)%N || is_high_surrogate c || is_low_surrogate c) eqn:Hescape.
  - apply parse_unicode_escape.
    apply orb_true_iff in Hescape. destruct Hescape as [Hescape|Hlow].
    + apply orb_true_iff in Hescape. destruct Hescape as [Hsmall|Hhigh].
      * to_prop. lia.
      * pose proof (surrogate_range c (or_introl Hhigh)). lia.
    + pose proof (surrogate_range c (or_intror Hlow)). lia.
  - apply orb_false_iff in Hescape. destruct Hescape as [Hescape _].
    apply orb_false_iff in Hescape. destruct Hescape as [Hsmall _].
    to_prop. apply parse_raw; assumption.
Qed.

Lemma parse_quote_body_step (s : jsstring) :
  parse_string_body (quote_body s ++ [DQUOTE]) = Some s
  /\ forall c, parse_string_body (quote_body (c :: s) ++ [DQUOTE]) = Some (c :: s).
Proof.
  induction s as [|d s [IH0 IH1]].
  - split; [reflexivity|]. intros c. simpl quote_body.
    destruct (is_high_surrogate c) eqn:Hhigh.
    + rewrite parse_unicode_escape; [reflexivity|].
      pose proof (surrogate_range c (or_introl Hhigh)). lia.
    + rewrite app_nil_r, parse_quote_unit. reflexivity.
  - split; [apply IH1|]. intros c.
    change (quote_body (c :: d :: s)) with
      (if is_high_surrogate c then
         if is_low_surrogate d then c :: d :: quote_body s
         else unicode_escape c ++ quote_body (d :: s)
       else quote_unit c ++ quote_body (d :: s)).
    destruct (is_high_surrogate c) eqn:Hhigh; [destruct (is_low_surrogate d) eqn:Hlow|].
    + pose proof (surrogate_range c (or_introl Hhigh)).
      pose proof (surrogate_range d (or_intror Hlow)).
      simpl app. rewrite parse_raw by lia. rewrite parse_raw by lia.
      rewrite IH0. reflexivity.
    + rewrite <- app_assoc, parse_unicode_escape, IH1; [reflexivity|].
      pose proof (surrogate_range c (or_introl Hhigh)). lia.
    + rewrite <- app_assoc, parse_quote_unit, IH1. reflexivity.
Qed.

Lemma JSON_parse_quote (s : jsstring) : JSON_parse_string (quote s) = Some s.
Proof. unfold quote, JSON_parse_string. simpl. apply parse_quote_body_step. Qed.

(** ** UTF-8 bytes decode back *)

Lemma pair_induction (P : jsstring -> Prop) :
  P [] ->
  (forall c, P [c]) ->
  (forall c d s, P s -> P (d :: s) -> P (c :: d :: s)) ->
  forall s, P s.
Proof.
  intros Hnil Hone Hstep s.
  enough (H : P s /\ forall c, P (c :: s)) by apply H.
  induction s as [|d s [IH0 IH1]].
  - split; [exact Hnil | exact Hone].
  - split; [apply IH1|]. intros c. apply Hstep; [exact IH0 | apply IH1].
Qed.

Lemma to_N_byte_of (n : N) : (n < 256)%N -> Byte.to_N (byte_of n) = n.
Proof.
  intros Hn. unfold byte_of. destruct (Byte.of_N n) as [b|] eqn:Hb.
  - apply Byte.to_of_N. exact Hb.
  - apply Byte.of_N_None_iff in Hb. lia.
Qed.

Lemma is_continuation_intro (n : N) :
  (0x80 <= n <= 0xBF)%N -> is_continuation n = true.
Proof.
  intros [Hlo Hhi]. unfold is_continuation.
  apply andb_true_iff. split; apply N.leb_le; assumption.
Qed.

Ltac decide_ltb :=
  match goal with
  | |- context [N.ltb ?a ?b] =>
      first [ rewrite (proj2 (N.ltb_lt a b)) by div_lia
            | rewrite (proj2 (N.ltb_ge a b)) by div_lia ]
  end.

Lemma decode_code_unit (c : char16) (rest : list byte) :
  (c < 65536)%N ->
  TextDecoder_decode (utf8_code_point c ++ rest) = prepend [c] (TextDecoder_decode rest).
Proof.
  intros Hc. unfold utf8_code_point.
  destruct (N.ltb_spec c 0x80) as [H1|H1];
    [|destruct (N.ltb_spec c 0x800) as [H2|H2];
      [|destruct (N.ltb_spec c 0x10000) as [H3|H3]; [|lia]]];
    cbn [app TextDecoder_decode]; cbv zeta.
  - rewrite (to_N_byte_of c) by lia. decide_ltb. reflexivity.
  - rewrite (to_N_byte_of (192 + c / 64)) by div_lia.
    rewrite (to_N_byte_of (128 + c mod 64)) by div_lia.
    repeat decide_ltb.
    rewrite is_continuation_intro by div_lia.
    unfold utf16_of_code_point. decide_ltb.
    replace ((192 + c / 64 - 192) * 64 + (128 + c mod 64 - 128))%N with c by div_lia.
    reflexivity.
  - rewrite (to_N_byte_of (224 + c / 4096)) by div_lia.
    rewrite (to_N_byte_of (128 + (c / 64) mod 64)) by div_lia.
    rewrite (to_N_byte_of (128 + c mod 64)) by div_lia.
    repeat decide_ltb.
    rewrite !is_continuation_intro by div_lia. simpl andb.
    unfold utf16_of_code_point. decide_ltb.
    replace ((224 + c / 4096 - 224) * 4096 + (128 + (c / 64) mod 64 - 128) * 64 +
             (128 + c mod 64 - 128))%N with c by div_lia.
    reflexivity.
Qed.

Lemma decode_pair (hi lo : char16) (rest : list byte) :
  is_high_surrogate hi = true ->
  is_low_surrogate lo = true ->
  TextDecoder_decode (utf8_code_point (code_point_of_pair hi lo) ++ rest) =
  prepend [hi; lo] (TextDecoder_decode rest).
Proof.
  intros Hhi Hlo. unfold is_high_surrogate, is_low_surrogate in *. to_prop.
  assert (Hrange : (0x10000 <= code_point_of_pair hi lo <= 0x10FFFF)%N)
    by (unfold code_point_of_pair; lia).
  assert (Hhigh : (0xD800 + (code_point_of_pair hi lo - 0x10000) / 1024 = hi)%N)
    by (unfold code_point_of_pair; div_lia).
  assert (Hlow : (0xDC00 + (code_point_of_pair hi lo - 0x10000) mod 1024 = lo)%N)
    by (unfold code_point_of_pair; div_lia).
  remember (code_point_of_pair hi lo) as cp eqn:Hcp. clear Hcp.
  unfold utf8_code_point. repeat decide_ltb.
  cbn [app TextDecoder_decode]; cbv zeta.
  rewrite (to_N_byte_of (240 + cp / 262144)) by div_lia.
  rewrite (to_N_byte_of (128 + (cp / 4096) mod 64)) by div_lia.
  rewrite (to_N_byte_of (128 + (cp / 64) mod 64)) by div_lia.
  rewrite (to_N_byte_of (128 + cp mod 64)) by div_lia.
  repeat decide_ltb.
  rewrite !is_continuation_intro by div_lia. simpl andb.
  replace ((240 + cp / 262144 - 240) * 262144 + (128 + (cp / 4096) mod 64 - 128) * 4096 +
           (128 + (cp / 64) mod 64 - 128) * 64 + (128 + cp mod 64 - 128))%N
    with cp by div_lia.
  unfold utf16_of_code_point. decide_ltb. rewrite Hhigh, Hlow. reflexivity.
Qed.

Lemma decode_encode (s : jsstring) :
  well_formed s = true -> TextDecoder_decode (TextEncoder_encode s) = Some s.
Proof.
  induction s as [| c | c d s IH0 IH1] using pair_induction; intros Hwf.
  - reflexivity.
  - simpl in *. destruct (is_high_surrogate c); [discriminate|].
    to_prop. rewrite H. rewrite decode_code_unit by assumption. reflexivity.
  - change (well_formed (c :: d :: s)) with
      (if is_high_surrogate c then is_low_surrogate d && well_formed s
       else negb (is_low_surrogate c) && (c <? 65536)%N && well_formed (d :: s)) in Hwf.
    change (TextEncoder_encode (c :: d :: s)) with
      (if is_high_surrogate c then
         if is_low_surrogate d
         then utf8_code_point (code_point_of_pair c d) ++ TextEncoder_encode s
         else utf8_code_point REPLACEMENT ++ TextEncoder_encode (d :: s)
       else if is_low_surrogate c
            then utf8_code_point REPLACEMENT ++ TextEncoder_encode (d :: s)
            else utf8_code_point c ++ TextEncoder_encode (d :: s)).
    destruct (is_high_surrogate c) eqn:Hhigh.
    + apply andb_true_iff in Hwf. destruct Hwf as [Hlow Hwf].
      rewrite Hlow, decode_pair by assumption. rewrite (IH0 Hwf). reflexivity.
    + apply andb_true_iff in Hwf. destruct Hwf as [Hwf Hrest].
      apply andb_true_iff in Hwf. destruct Hwf as [Hlow Hunit].
      apply negb_true_iff in Hlow. apply N.ltb_lt in Hunit.
      rewrite Hlow, decode_code_unit by assumption. rewrite (IH1 Hrest). reflexivity.
Qed.

(** ** What the framer encodes has no unpaired surrogate *)

Lemma well_formed_plain (c : char16) (t : jsstring) :
  is_high_surrogate c = false -> is_low_surrogate c = false -> (c < 65536)%N ->
  well_formed (c :: t) = well_formed t.
Proof.
  intros Hhigh Hlow Hc. simpl. rewrite Hhigh, Hlow.
  rewrite (proj2 (N.ltb_lt c 65536) Hc). reflexivity.
Qed.

Lemma well_formed_ascii (c : char16) (t : jsstring) :
  (c < 0xD800)%N -> well_formed (c :: t) = well_formed t.
Proof.
  intros Hc. apply well_formed_plain; [| |lia].
  - unfold is_high_surrogate. rewrite (proj2 (N.leb_gt 0xD800 c)) by lia. reflexivity.
  - unfold is_low_surrogate. rewrite (proj2 (N.leb_gt 0xDC00 c)) by lia. reflexivity.
Qed.

Lemma well_formed_unicode_escape (c : char16) (t : jsstring) :
  well_formed (unicode_escape c ++ t) = well_formed t.
Proof.
  unfold unicode_escape. cbn [app].
  assert (Hdigit : forall d, (d < 16)%N -> (hex_digit d < 0xD800)%N).
  { intros d Hd. pose proof (hex_digit_ascii d Hd). lia. }
  rewrite !well_formed_ascii;
    try (apply Hdigit; apply N.mod_lt; discriminate);
    try reflexivity; unfold BACKSLASH; lia.
Qed.

Lemma well_formed_quote_unit (c : char16) (t : jsstring) :
  (c < 65536)%N -> well_formed (quote_unit c ++ t) = well_formed t.
Proof.
  intros Hc. unfold quote_unit.
  repeat match goal with
         | |- context [N.eqb c ?k] => destruct (N.eqb c k); [reflexivity|]
         end.
  destruct ((c <? 32)%N || is_high_surrogate c || is_low_surrogate c) eqn:Hescape.
  - apply well_formed_unicode_escape.
  - apply orb_false_iff in Hescape. destruct Hescape as [Hescape Hlow].
    apply orb_false_iff in Hescape. destruct Hescape as [_ Hhigh].
    apply well_formed_plain; assumption.
Qed.

Lemma well_formed_quote_body (s t : jsstring) :
  code_units s -> well_formed (quote_body s ++ t) = well_formed t.
Proof.
  revert t. induction s as [| c | c d s IH0 IH1] using pair_induction; intros t Hunits.
  - reflexivity.
  - inversion Hunits as [|? ? Hc _]; subst. simpl quote_body.
    destruct (is_high_surrogate c).
    + apply well_formed_unicode_escape.
    + rewrite app_nil_r. apply well_formed_quote_unit. assumption.
  - inversion Hunits as [|? ? Hc Hrest]; subst.
    inversion Hrest as [|? ? Hd Hs]; subst.
    change (quote_body (c :: d :: s)) with
      (if is_high_surrogate c then
         if is_low_surrogate d then c :: d :: quote_body s
         else unicode_escape c ++ quote_body (d :: s)
       else quote_unit c ++ quote_body (d :: s)).
    destruct (is_high_surrogate c) eqn:Hhigh; [destruct (is_low_surrogate d) eqn:Hlow|].
    + cbn [app]. cbn [well_formed]. rewrite Hhigh, Hlow. simpl andb. apply IH0. assumption.
    + rewrite <- app_assoc, well_formed_unicode_escape. apply IH1. assumption.
    + rewrite <- app_assoc, well_formed_quote_unit by assumption. apply IH1. assumption.
Qed.

Lemma content_record_well_formed (content : jsstring) :
  code_units content ->
  well_formed (record_text "0" (Some (JStr content))) = true.
Proof.
  intros Hunits. unfold record_text, stringify_in_template, stringify, quote.
  change (lit "0" ++ lit ":" ++ (DQUOTE :: quote_body content ++ [DQUOTE]) ++ [LF])
    with (48 :: 58 :: DQUOTE :: (quote_body content ++ [DQUOTE]) ++ [LF])%N.
  rewrite !well_formed_ascii by (unfold DQUOTE; lia).
  rewrite <- app_assoc, well_formed_quote_body by assumption. reflexivity.
Qed.

(** ** Reading back what was framed *)

Lemma strip_final_LF_app (s : jsstring) : strip_final_LF (s ++ [LF]) = Some s.
Proof.
  unfold strip_final_LF. rewrite rev_app_distr. simpl. rewrite rev_involutive.
  reflexivity.
Qed.

Lemma read_content_record (content : jsstring) :
  code_units content ->
  read_content (TextEncoder_encode (record_text "0" (Some (JStr content)))) = Some content.
Proof.
  intros Hunits. unfold read_content.
  rewrite decode_encode by (apply content_record_well_formed; assumption).
  unfold record_text, stringify_in_template, stringify.
  change (lit "0" ++ lit ":" ++ quote content ++ [LF])
    with (48 :: 58 :: quote content ++ [LF])%N.
  simpl andb. cbv iota. rewrite strip_final_LF_app. apply JSON_parse_quote.
Qed.

Lemma read_all_records (contents : list jsstring) :
  Forall code_units contents ->
  read_all (List.map (fun content =>
                        TextEncoder_encode (record_text "0" (Some (JStr content))))
                     contents) = Some contents.
Proof.
  intros Hall. induction Hall as [|content rest Hcontent _ IH]; [reflexivity|].
  cbn [List.map read_all]. rewrite read_content_record by assumption.
  rewrite IH. reflexivity.
Qed.

Lemma with_newlines_code_units (message : jsstring) :
  code_units message ->
  Forall code_units (with_newlines (split_on LF message)).
Proof.
  intros Hunits. apply Forall_concat. rewrite concat_with_newlines. exact Hunits.
Qed.

Lemma reassemble_start (message : jsstring) :
  code_units message ->
  reassemble {| queue := content_chunks message ++ [finish_chunk message; done_chunk message];
                closed := true |} = Some message.
Proof.
  intros Hunits. unfold reassemble. cbn [queue].
  rewrite filter_app, (filter_tag_all _ (content_chunks_tagged message)).
  cbn [List.filter]. unfold has_tag. rewrite finish_chunk_tag, done_chunk_tag.
  cbn [Byte.eqb]. simpl. rewrite app_nil_r.
  rewrite content_chunks_with_newlines.
  rewrite read_all_records by (apply with_newlines_code_units; assumption).
  simpl. rewrite concat_with_newlines. reflexivity.
Qed.

(** ** Conversions of parsed values *)

Lemma json_induction (P : json -> Prop) :
  P JNull ->
  (forall b, P (JBool b)) ->
  (forall z, P (JNum z)) ->
  (forall s, P (JStr s)) ->
  (forall items, Forall P items -> P (JArr items)) ->
  (forall fields, P (JObj fields)) ->
  forall v, P v.
Proof.
  intros Hnull Hbool Hnum Hstr Harr Hobj.
  fix IH 1. intros [| b | z | s | items | fields].
  - exact Hnull.
  - apply Hbool.
  - apply Hnum.
  - apply Hstr.
  - apply Harr. induction items as [|x rest IHrest]; constructor.
    + apply IH.
    + exact IHrest.
  - apply Hobj.
Qed.

Lemma to_string_array (w : World) (items : list json) :
  to_string w (JArr items) = join_items w (lit ",") items.
Proof. reflexivity. Qed.

Lemma join_element_as_to_string (w : World) (x : json) :
  join_element w x = match x with JNull => Returned [] | _ => to_string w x end.
Proof. reflexivity. Qed.

(** [ToString] either has a text or throws the one [TypeError], and which
    of the two does not depend on the engine. *)
Lemma to_string_outcome (w : World) (v : json) :
  (converts v = true -> exists text, to_string w v = Returned text)
  /\ (converts v = false -> to_string w v = Thrown TypeError_primitive).
Proof.
  induction v as [| b | z | s | items IH | fields] using json_induction;
    try (split; [intros _; eexists; reflexivity | discriminate]).
  - split; [intros _; destruct b; eexists; reflexivity | discriminate].
  - rewrite to_string_array. unfold join_items. cbn [converts].
    assert (Hseq :
              (forallb (fun x => converts x) items = true ->
               exists texts, sequence (List.map (join_element w) items) = Returned texts)
              /\ (forallb (fun x => converts x) items = false ->
                  sequence (List.map (join_element w) items) = Thrown TypeError_primitive)).
    { induction IH as [|x rest [Hyes Hno] _ [IHyes IHno]].
      - split; [intros _; eexists; reflexivity | discriminate].
      - cbn [forallb List.map sequence].
        assert (Hx : (converts x = true -> exists text, join_element w x = Returned text)
                     /\ (converts x = false -> join_element w x = Thrown TypeError_primitive)).
        { destruct x; try exact (conj Hyes Hno).
          split; [intros _; eexists; reflexivity | discriminate]. }
        destruct Hx as [Hxyes Hxno].
        destruct (converts x) eqn:Hc.
        + destruct (Hxyes eq_refl) as [text ->]. cbn [andb]. split.
          * intros Hrest. destruct (IHyes Hrest) as [texts ->]. eexists. reflexivity.
          * intros Hrest. rewrite (IHno Hrest). reflexivity.
        + rewrite (Hxno eq_refl). split; [discriminate | reflexivity]. }
    destruct Hseq as [Hyes Hno]. split.
    + intros H. destruct (Hyes H) as [texts ->]. eexists. reflexivity.
    + intros H. rewrite (Hno H). reflexivity.
  - cbn [converts to_string].
    destruct (lookup (lit "toString") fields);
      split; try discriminate; try reflexivity.
    intros _. eexists. reflexivity.
Qed.

Lemma to_string_thrown (w : World) (v : json) (e : thrown) :
  to_string w v = Thrown e -> converts v = false /\ e = TypeError_primitive.
Proof.
  intros H. destruct (to_string_outcome w v) as [Hyes Hno].
  destruct (converts v).
  - destruct (Hyes eq_refl) as [text Htext]. congruence.
  - rewrite (Hno eq_refl) in H. injection H as <-. split; reflexivity.
Qed.

Lemma interpolate_converts (w : World) (v : value) :
  value_converts v = true -> exists text, interpolate w v = Returned text.
Proof.
  destruct v as [x|]; [|intros _; eexists; reflexivity].
  apply (proj1 (to_string_outcome w x)).
Qed.

Lemma join_items_converts (w : World) (sep : jsstring) (items : list json) :
  converts (JArr items) = true -> exists text, join_items w sep items = Returned text.
Proof.
  intros H. destruct (proj1 (to_string_outcome w (JArr items)) H) as [text Htext].
  rewrite to_string_array in Htext. unfold join_items in *.
  destruct (sequence (List.map (join_element w) items)) as [texts|e];
    [eexists; reflexivity | discriminate Htext].
Qed.

Lemma to_string_same_engine (w w' : World) (v : json) :
  (forall z, number_text w' z = number_text w z) ->
  to_string w' v = to_string w v.
Proof.
  intros Hengine.
  induction v as [| b | z | s | items IH | fields] using json_induction;
    try reflexivity.
  - cbn [to_string]. unfold number_to_string. rewrite Hengine. reflexivity.
  - rewrite !to_string_array. unfold join_items. f_equal. f_equal.
    induction IH as [|x rest Hx _ IHrest]; [reflexivity|].
    cbn [List.map]. rewrite IHrest. f_equal.
    destruct x; try reflexivity; exact Hx.
Qed.

Lemma join_items_same_engine (w w' : World) (sep : jsstring) (items : list json) :
  (forall z, number_text w' z = number_text w z) ->
  join_items w' sep items = join_items w sep items.
Proof.
  intros Hengine. unfold join_items. f_equal. f_equal.
  apply map_ext. intros x. rewrite !join_element_as_to_string.
  destruct x; try reflexivity; apply to_string_same_engine; assumption.
Qed.

Lemma greater_than_zero_thrown (w : World) (v : value) (e : thrown) :
  greater_than_zero w v = Thrown e ->
  e = TypeError_primitive /\ forall w', greater_than_zero w' v = Thrown e.
Proof.
  destruct v as [[| b | z | s | items | fields]|]; cbn [greater_than_zero];
    try discriminate.
  - destruct (to_string w (JArr items)) as [text|e0] eqn:Hw; [discriminate|].
    intros H. injection H as <-.
    destruct (to_string_thrown w _ _ Hw) as [Hconv ->].
    split; [reflexivity|]. intros w'.
    rewrite (proj2 (to_string_outcome w' (JArr items)) Hconv). reflexivity.
  - destruct (to_string w (JObj fields)) as [text|e0] eqn:Hw; [discriminate|].
    intros H. injection H as <-.
    destruct (to_string_thrown w _ _ Hw) as [Hconv ->].
    split; [reflexivity|]. intros w'.
    rewrite (proj2 (to_string_outcome w' (JObj fields)) Hconv). reflexivity.
Qed.

Lemma has_image_thrown (w : World) (data : value) (e : thrown) :
  has_image w data = Thrown e ->
  e = TypeError_primitive /\ forall w', has_image w' data = Thrown e.
Proof.
  unfold has_image. destruct (truthy (optional_images data)); [|discriminate].
  apply greater_than_zero_thrown.
Qed.

(** ** Decimal numerals *)

Lemma lit_cons (a : ascii) (s : string) : lit (String a s) = N_of_ascii a :: lit s.
Proof. reflexivity. Qed.

Lemma uint_digits (d : Decimal.uint) :
  forallb is_digit (lit (NilEmpty.string_of_uint d)) = true.
Proof. induction d; simpl; try rewrite lit_cons; simpl; auto. Qed.

Lemma decimal_N_digits (n : N) : forallb is_digit (decimal_N n) = true.
Proof. apply uint_digits. Qed.

Lemma decimal_Z_digits (n : nat) : forallb is_digit (decimal_Z (Z.of_nat n)) = true.
Proof.
  unfold decimal_Z. destruct (Z.of_nat n) eqn:Hn; simpl.
  - reflexivity.
  - apply uint_digits.
  - lia.
Qed.

Lemma forallb_weaken {A : Type} (p q : A -> bool) (l : list A) :
  (forall x, p x = true -> q x = true) -> forallb p l = true -> forallb q l = true.
Proof.
  intros Hpq. induction l as [|x l IH]; simpl; [reflexivity|].
  intros H. apply andb_true_iff in H. destruct H as [Hx Hl].
  rewrite (Hpq x Hx), (IH Hl). reflexivity.
Qed.

Lemma digit_range (c : char16) : is_digit c = true -> (48 <= c <= 57)%N.
Proof. unfold is_digit. intros H. to_prop. lia. Qed.

(** ** The steps of the pipeline *)

Lemma encode_unreserved (s t : jsstring) :
  forallb uri_unreserved s = true ->
  encodeURIComponent (s ++ t) =
  match encodeURIComponent t with
  | Returned r => Returned (s ++ r)
  | Thrown e => Thrown e
  end.
Proof.
  induction s as [|c s IH]; intros Hs.
  - simpl. destruct (encodeURIComponent t); reflexivity.
  - simpl in Hs. apply andb_true_iff in Hs. destruct Hs as [Hc Hs].
    cbn [app encodeURIComponent]. rewrite Hc, (IH Hs).
    destruct (encodeURIComponent t); reflexivity.
Qed.

Lemma encode_all_unreserved (s : jsstring) :
  forallb uri_unreserved s = true -> encodeURIComponent s = Returned s.
Proof.
  intros Hs. rewrite <- (app_nil_r s) at 1. rewrite encode_unreserved by assumption.
  simpl. rewrite app_nil_r. reflexivity.
Qed.

Lemma digit_unreserved (c : char16) : is_digit c = true -> uri_unreserved c = true.
Proof.
  intros H. unfold uri_unreserved. unfold is_digit in H. rewrite H.
  rewrite !orb_true_r. reflexivity.
Qed.

Lemma encodeURIComponent_file_key (w : World) :
  encodeURIComponent (file_key w) =
  Returned (lit "uploads%2F" ++ decimal_N (Date_now w) ++ lit "-image.jpeg").
Proof.
  unfold file_key.
  change (lit "uploads/" ++ decimal_N (Date_now w) ++ lit "-image.jpeg")
    with (lit "uploads" ++ 47%N :: (decimal_N (Date_now w) ++ lit "-image.jpeg")).
  rewrite encode_unreserved by reflexivity.
  cbn [encodeURIComponent]. change (uri_unreserved 47%N) with false. cbv iota.
  change (is_low_surrogate 47%N) with false. change (is_high_surrogate 47%N) with false.
  cbv iota.
  rewrite encode_all_unreserved; [reflexivity|].
  rewrite forallb_app. apply andb_true_iff. split; [|reflexivity].
  apply (forallb_weaken is_digit); [apply digit_unreserved | apply decimal_N_digits].
Qed.

Lemma entering_pipeline (w : World) (data : value) :
  has_image w data = Returned true ->
  get data "images" = Returned (optional_images data)
  /\ first_of (optional_images data) = Returned (image_url data).
Proof.
  unfold has_image, image_url.
  destruct data as [[| | | | |fields]|]; cbn [optional_images truthy get];
    try discriminate.
  destruct (lookup (lit "images") fields) as [[| | | | |]|]; cbn [truthy];
    try discriminate; intros _; split; reflexivity.
Qed.

Lemma request_prediction_steps (w : World) (data : value) (c : console) :
  has_image w data = Returned true ->
  request_prediction w data c =
  (match download w data with
   | Thrown e => Thrown e
   | Returned buffer =>
       match s3_send w (upload_command w buffer) with
       | Thrown e => Thrown e
       | Returned _ => fetch w (Some (JStr (prediction_url w))) HttpPost
       end
   end, c).
Proof.
  intros Himage. destruct (entering_pipeline w data Himage) as [Hget Hfirst].
  unfold request_prediction, bind, lift, download. rewrite Hget, Hfirst.
  destruct (fetch w (image_url data) HttpGet) as [response|e]; [|reflexivity].
  destruct (blob_bytes response) as [buffer|e]; [|reflexivity].
  fold (file_key w). fold (upload_command w buffer).
  destruct (s3_send w (upload_command w buffer)) as [[]|e]; [|reflexivity].
  rewrite encodeURIComponent_file_key. unfold prediction_url. reflexivity.
Qed.

(** The [try] block never touches the console, and what it returns is a
    success report. *)
Lemma format_result_shape (w : World) (predictionResult : json) (c : console) :
  (exists e, format_result w predictionResult c = (Thrown e, c))
  \/ (exists count labels uid,
        format_result w predictionResult c =
        (Returned (success_message count labels uid count labels), c)).
Proof.
  unfold format_result, bind, lift.
  destruct (field_text w predictionResult "detection_count") as [count|e];
    [|left; eexists; reflexivity].
  destruct (labels_joined w predictionResult) as [labels|e];
    [|left; eexists; reflexivity].
  destruct (field_text w predictionResult "prediction_uid") as [uid|e];
    [|left; eexists; reflexivity].
  right. exists count, labels, uid. reflexivity.
Qed.

Lemma request_prediction_console (w : World) (data : value) (c : console) :
  snd (request_prediction w data c) = c.
Proof.
  unfold request_prediction, bind, lift.
  repeat match goal with
         | |- context [match ?x with Returned _ => _ | Thrown _ => _ end] =>
             destruct x
         end; reflexivity.
Qed.

Lemma try_block_shape (w : World) (data : value) (c : console) :
  (exists e, try_block w data c = (Thrown e, c))
  \/ (exists count labels uid,
        try_block w data c =
        (Returned (success_message count labels uid count labels), c)).
Proof.
  unfold try_block, bind.
  pose proof (request_prediction_console w data c) as Hconsole.
  destruct (request_prediction w data c) as [[predictionResponse|e] c1];
    simpl in Hconsole; subst c1; [|left; eexists; reflexivity].
  destruct (ok predictionResponse); cbn [negb]; cbv iota;
    [|left; eexists; reflexivity].
  unfold lift at 1.
  destruct (json_body predictionResponse) as [predictionResult|e];
    [|left; eexists; reflexivity].
  apply format_result_shape.
Qed.

Lemma try_block_after_request (w : World) (data : value) (c c1 : console)
      (predictionResponse : fetch_response) :
  request_prediction w data c = (Returned predictionResponse, c1) ->
  ok predictionResponse = true ->
  try_block w data c =
  match json_body predictionResponse with
  | Returned predictionResult => format_result w predictionResult c1
  | Thrown e => (Thrown e, c1)
  end.
Proof.
  intros Hrequest Hok. unfold try_block, bind. rewrite Hrequest, Hok.
  cbn [negb]. cbv iota. unfold lift.
  destruct (json_body predictionResponse); reflexivity.
Qed.

Lemma try_block_request_failed (w : World) (data : value) (c : console) (e : thrown) :
  request_prediction w data c = (Thrown e, c) ->
  try_block w data c = (Thrown e, c).
Proof. intros Hrequest. unfold try_block, bind. rewrite Hrequest. reflexivity. Qed.

Lemma format_result_labels (w : World) (fields : list (jsstring * json))
      (items : list json) (c : console) :
  lookup (lit "labels") fields = Some (JArr items) ->
  converts (JArr items) = true ->
  value_converts (lookup (lit "detection_count") fields) = true ->
  value_converts (lookup (lit "prediction_uid") fields) = true ->
  exists count labels uid,
    interpolate w (lookup (lit "detection_count") fields) = Returned count
    /\ join_items w (lit ", ") items = Returned labels
    /\ interpolate w (lookup (lit "prediction_uid") fields) = Returned uid
    /\ format_result w (JObj fields) c =
       (Returned (success_message count labels uid count labels), c).
Proof.
  intros Hlabels Hitems Hcount Huid.
  destruct (interpolate_converts w _ Hcount) as [count Hc].
  destruct (join_items_converts w (lit ", ") items Hitems) as [labels Hl].
  destruct (interpolate_converts w _ Huid) as [uid Hu].
  exists count, labels, uid. repeat split; try assumption.
  unfold format_result, bind, lift, field_text, labels_joined, get.
  rewrite Hlabels, Hc, Hl, Hu. reflexivity.
Qed.

Lemma labels_joined_without_array (w : World) (predictionResult : json) :
  (forall items, member "labels" (Some predictionResult) <> Some (JArr items)) ->
  exists e, labels_joined w predictionResult = Thrown e.
Proof.
  intros Hnot. unfold labels_joined, get.
  destruct predictionResult as [| | | | |fields]; try (eexists; reflexivity).
  cbn [member] in Hnot.
  destruct (lookup (lit "labels") fields) as [[| | | |items|]|];
    try (eexists; reflexivity).
  exfalso. apply (Hnot items). reflexivity.
Qed.

Lemma format_result_without_labels (w : World) (predictionResult : json) (c : console) :
  (forall items, member "labels" (Some predictionResult) <> Some (JArr items)) ->
  exists e, format_result w predictionResult c = (Thrown e, c).
Proof.
  intros Hnot. destruct (labels_joined_without_array w predictionResult Hnot) as [e He].
  unfold format_result, bind, lift.
  destruct (field_text w predictionResult "detection_count") as [count|e0];
    [|eexists; reflexivity].
  rewrite He. eexists. reflexivity.
Qed.

Lemma has_image_list (w : World) (fields : list (jsstring * json))
      (first : json) (rest : list json) :
  lookup (lit "images") fields = Some (JArr (first :: rest)) ->
  has_image w (Some (JObj fields)) = Returned true.
Proof.
  intros Himages. unfold has_image. cbn [optional_images]. rewrite Himages.
  cbn [truthy length_of greater_than_zero]. reflexivity.
Qed.

Lemma has_image_string (w : World) (fields : list (jsstring * json))
      (ch : char16) (s : jsstring) :
  lookup (lit "images") fields = Some (JStr (ch :: s)) ->
  has_image w (Some (JObj fields)) = Returned true.
Proof.
  intros Himages. unfold has_image. cbn [optional_images]. rewrite Himages.
  cbn [truthy length_of greater_than_zero]. reflexivity.
Qed.

Lemma try_block_reads_first (w : World) (data data' : value) (c : console) :
  get data "images" = Returned (optional_images data) ->
  get data' "images" = Returned (optional_images data') ->
  first_of (optional_images data) = first_of (optional_images data') ->
  try_block w data c = try_block w data' c.
Proof.
  intros Hget Hget' Hfirst. unfold try_block, request_prediction, bind, lift.
  rewrite Hget, Hget', Hfirst. reflexivity.
Qed.

Lemma has_image_same_engine (code : N) (w : World) (data : value) :
  has_image (with_image_status code w) data = has_image w data.
Proof.
  unfold has_image. destruct (truthy (optional_images data)); [|reflexivity].
  destruct (length_of (optional_images data)) as [[| | | | items | fields]|];
    try reflexivity; cbn [greater_than_zero];
    rewrite (to_string_same_engine w (with_image_status code w)) by reflexivity;
    reflexivity.
Qed.

Lemma format_result_same_engine (code : N) (w : World) (predictionResult : json)
      (c : console) :
  format_result (with_image_status code w) predictionResult c =
  format_result w predictionResult c.
Proof.
  assert (Hfield : forall prop,
             field_text (with_image_status code w) predictionResult prop =
             field_text w predictionResult prop).
  { intros prop. unfold field_text.
    destruct (get (Some predictionResult) prop) as [[x|]|e]; try reflexivity.
    apply to_string_same_engine. reflexivity. }
  assert (Hlabels : labels_joined (with_image_status code w) predictionResult =
                    labels_joined w predictionResult).
  { unfold labels_joined.
    destruct (get (Some predictionResult) "labels") as [[[| | | | items |]|]|e];
      try reflexivity.
    apply join_items_same_engine. reflexivity. }
  unfold format_result, bind, lift. rewrite !Hfield, Hlabels. reflexivity.
Qed.

Lemma request_prediction_same_status (code : N) (w : World) (data : value) (c : console) :
  request_prediction (with_image_status code w) data c = request_prediction w data c.
Proof.
  unfold request_prediction, bind, lift.
  destruct (get data "images") as [images|e]; [|reflexivity].
  destruct (first_of images) as [imageUrl|e]; [|reflexivity].
  cbn [fetch with_image_status].
  destruct (fetch w imageUrl HttpGet) as [response|e]; reflexivity.
Qed.

Lemma try_block_same_status (code : N) (w : World) (data : value) (c : console) :
  try_block (with_image_status code w) data c = try_block w data c.
Proof.
  unfold try_block, bind. rewrite request_prediction_same_status.
  destruct (request_prediction w data c) as [[predictionResponse|e] c1]; [|reflexivity].
  destruct (ok predictionResponse); cbn [negb]; cbv iota; [|reflexivity].
  unfold lift. destruct (json_body predictionResponse) as [predictionResult|e];
    [|reflexivity].
  apply format_result_same_engine.
Qed.

(** ** When the handler answers *)

Lemma mapM_cleanMessage_inv (items : list json) :
  forall (c c1 : console) (cleaned : list json),
    mapM (fun message => lift (cleanMessage message)) items c = (Returned cleaned, c1) ->
    Forall (fun message => message <> JNull) items.
Proof.
  induction items as [|message rest IH]; intros c c1 cleaned H; [constructor|].
  cbn [mapM] in H. unfold bind at 1 in H. unfold lift at 1 in H.
  destruct message; try discriminate H;
    (constructor; [discriminate|]);
    cbn [cleanMessage] in H; unfold bind at 1 in H;
    destruct (mapM (fun message => lift (cleanMessage message)) rest c)
      as [[ys|e] c2] eqn:Hrest; try discriminate H;
    exact (IH c c2 ys Hrest).
Qed.

Lemma cleanedMessages_console (messages : value) (c : console) :
  snd (cleanedMessages messages c) = c.
Proof.
  destruct messages as [[| | | |items|]|]; try reflexivity.
  unfold cleanedMessages. revert c.
  induction items as [|message rest IH]; intros c; [reflexivity|].
  cbn [mapM]. unfold bind at 1. unfold lift at 1.
  destruct (cleanMessage message) as [y|e]; [|reflexivity].
  unfold bind at 1. specialize (IH c).
  destruct (mapM (fun message => lift (cleanMessage message)) rest c) as [[ys|e] c2];
    simpl in *; exact IH.
Qed.

Lemma normalize_console (body : json) (c : console) :
  snd (normalize body c) = c.
Proof.
  unfold normalize, bind, lift.
  destruct (destructure_body body) as [[[messages selectedModel] data]|e]; [|reflexivity].
  pose proof (cleanedMessages_console messages c) as H.
  destruct (cleanedMessages messages c) as [[cleaned|e] c1]; simpl in *; exact H.
Qed.

Lemma normalize_inv (body : json) (c c1 : console)
      (cleaned : list json) (selectedModel data : value) :
  normalize body c = (Returned (cleaned, selectedModel, data), c1) ->
  exists fields items,
    body = JObj fields
    /\ lookup (lit "messages") fields = Some (JArr items)
    /\ Forall (fun message => message <> JNull) items
    /\ data = lookup (lit "data") fields.
Proof.
  unfold normalize, bind, lift. intros H.
  destruct body as [| | | | |fields]; try discriminate H.
  cbn [destructure_body] in H.
  destruct (lookup (lit "messages") fields) as [[| | | |items|]|] eqn:Hmessages;
    try discriminate H.
  cbn [cleanedMessages] in H.
  destruct (mapM (fun message => lift (cleanMessage message)) items c)
    as [[ys|e] c2] eqn:Hmap; try discriminate H.
  exists fields, items. split; [reflexivity|]. split; [exact Hmessages|].
  split; [exact (mapM_cleanMessage_inv items c c2 ys Hmap)|].
  unfold ret in H. injection H as _ _ Hdata _. symmetry. exact Hdata.
Qed.

Lemma POST_inv (w : World) (body : json) (c c' : console) (r : Response) :
  POST w (Returned body) c = (Returned r, c') ->
  exists cleaned selectedModel data message,
    normalize body c = (Returned (cleaned, selectedModel, data), c)
    /\ response_message w data c = (Returned message, c')
    /\ r = response_for message.
Proof.
  intros H. unfold POST, bind in H. unfold lift at 1 in H.
  pose proof (normalize_console body c) as Hconsole.
  destruct (normalize body c) as [[[[cleaned selectedModel] data]|e] c1];
    simpl in Hconsole; subst c1; [|discriminate H].
  destruct (response_message w data c) as [[message|e] c2] eqn:Hmessage;
    [|discriminate H].
  rewrite start_emits in H. injection H as <- <-.
  exists cleaned, selectedModel, data, message. repeat split; assumption.
Qed.

Lemma POST_as_answer (w : World) (parsed : json) (c c1 : console)
      (cleaned : list json) (selectedModel data : value) :
  normalize parsed c = (Returned (cleaned, selectedModel, data), c1) ->
  POST w (Returned parsed) c = answer w data c1.
Proof.
  intros Hnormalize. unfold POST, bind. unfold lift at 1.
  rewrite Hnormalize. reflexivity.
Qed.

Lemma answer_thrown (w : World) (data : value) (c : console) (e : thrown) :
  has_image w data = Thrown e -> answer w data c = (Thrown e, c).
Proof.
  intros H. unfold answer, bind.
  rewrite (response_message_thrown w data c e H). reflexivity.
Qed.

Lemma answer_throw_inv (w : World) (data : value) (c c' : console) (e : thrown) :
  answer w data c = (Thrown e, c') -> c' = c /\ has_image w data = Thrown e.
Proof.
  intros H. unfold answer, bind in H.
  destruct (has_image w data) as [passes|e0] eqn:Himage.
  - destruct (response_message_returns w data c passes Himage) as [message [c2 Hmessage]].
    rewrite Hmessage, start_emits in H. discriminate H.
  - rewrite (response_message_thrown w data c e0 Himage) in H.
    injection H as <- <-. split; reflexivity.
Qed.

Lemma POST_throw_inv (w : World) (req_json : outcome json) (c c' : console) (e : thrown) :
  POST w req_json c = (Thrown e, c') ->
  c' = c /\ rejection w req_json c e.
Proof.
  intros H. destruct req_json as [body|e0].
  - pose proof (normalize_console body c) as Hconsole.
    destruct (normalize body c) as [[[[cleaned selectedModel] data]|e1] c1] eqn:Hnormalize;
      simpl in Hconsole; subst c1.
    + rewrite (POST_as_answer w body c c cleaned selectedModel data Hnormalize) in H.
      destruct (answer_throw_inv w data c c' e H) as [-> Himage].
      split; [reflexivity|]. right. right.
      exists body, cleaned, selectedModel, data. repeat split; assumption.
    + unfold POST, bind in H. unfold lift at 1 in H. rewrite Hnormalize in H.
      injection H as <- <-. split; [reflexivity|]. right. left. exists body.
      split; [reflexivity | assumption].
  - unfold POST, bind in H. unfold lift at 1 in H.
    injection H as <- <-. split; [reflexivity|]. left. reflexivity.
Qed.

Lemma POST_thrown (w : World) (req_json : outcome json) (c : console) (e : thrown) :
  rejection w req_json c e -> POST w req_json c = (Thrown e, c).
Proof.
  intros [-> | [[body [-> Hnormalize]]
               | [body [cleaned [selectedModel [data [-> [Hnormalize Himage]]]]]]]].
  - reflexivity.
  - unfold POST, bind. unfold lift at 1. rewrite Hnormalize. reflexivity.
  - rewrite (POST_as_answer w body c c cleaned selectedModel data Hnormalize).
    apply answer_thrown. assumption.
Qed.

Lemma rejection_any_world (w w' : World) (req_json : outcome json) (c : console)
      (e : thrown) :
  rejection w req_json c e -> rejection w' req_json c e.
Proof.
  intros [H | [H | [body [cleaned [selectedModel [data [Hreq [Hnormalize Himage]]]]]]]].
  - left. exact H.
  - right. left. exact H.
  - right. right. exists body, cleaned, selectedModel, data.
    repeat split; try assumption.
    apply (proj2 (has_image_thrown w data e Himage)).
Qed.

(** ** Cleaning twice *)

Lemma without_idempotent (k : jsstring) (fields : list (jsstring * json)) :
  without k (without k fields) = without k fields.
Proof.
  unfold without. induction fields as [|[k' v] rest IH]; [reflexivity|].
  simpl. destruct (str_eqb k' k) eqn:Hk; simpl.
  - exact IH.
  - rewrite Hk. simpl. rewrite IH. reflexivity.
Qed.

Lemma mapM_cleanMessage_result (items : list json) (c c1 : console) (cleaned : list json) :
  mapM (fun message => lift (cleanMessage message)) items c = (Returned cleaned, c1) ->
  cleaned = List.map (fun message => JObj (without ATTACHMENTS (own_properties message)))
                     items.
Proof.
  intros H. pose proof (mapM_cleanMessage_inv items c c1 cleaned H) as Hall.
  rewrite (mapM_cleanMessage items c Hall) in H. injection H as <- _. reflexivity.
Qed.

(** ** Records and lines of the wire *)

Lemma split_on_length (s : jsstring) :
  length (split_on LF s) = S (newlines s).
Proof.
  unfold newlines. induction s as [|ch rest IH]; [reflexivity|].
  cbn [split_on List.filter]. rewrite (N.eqb_sym LF ch).
  destruct (N.eqb ch LF).
  - simpl. rewrite IH. reflexivity.
  - destruct (split_on LF rest) as [|line lines] eqn:Hsplit.
    + exfalso. exact (split_on_not_nil LF rest Hsplit).
    + simpl in *. exact IH.
Qed.

Lemma encode_then_LF (t : jsstring) :
  TextEncoder_encode (t ++ [LF]) = TextEncoder_encode t ++ [x0a].
Proof.
  induction t as [| ch | ch d t IH0 IH1] using pair_induction.
  - reflexivity.
  - change (TextEncoder_encode ([ch] ++ [LF])) with
      (if is_high_surrogate ch then utf8_code_point REPLACEMENT ++ [x0a]
       else if is_low_surrogate ch then utf8_code_point REPLACEMENT ++ [x0a]
       else utf8_code_point ch ++ [x0a]).
    change (TextEncoder_encode [ch]) with
      (if is_high_surrogate ch then utf8_code_point REPLACEMENT
       else if is_low_surrogate ch then utf8_code_point REPLACEMENT ++ []
       else utf8_code_point ch ++ []).
    destruct (is_high_surrogate ch); [reflexivity|].
    destruct (is_low_surrogate ch); rewrite app_nil_r; reflexivity.
  - change ((ch :: d :: t) ++ [LF]) with (ch :: d :: (t ++ [LF])).
    change (TextEncoder_encode (ch :: d :: t ++ [LF])) with
      (if is_high_surrogate ch then
         if is_low_surrogate d
         then utf8_code_point (code_point_of_pair ch d) ++ TextEncoder_encode (t ++ [LF])
         else utf8_code_point REPLACEMENT ++ TextEncoder_encode ((d :: t) ++ [LF])
       else if is_low_surrogate ch
            then utf8_code_point REPLACEMENT ++ TextEncoder_encode ((d :: t) ++ [LF])
            else utf8_code_point ch ++ TextEncoder_encode ((d :: t) ++ [LF])).
    change (TextEncoder_encode (ch :: d :: t)) with
      (if is_high_surrogate ch then
         if is_low_surrogate d
         then utf8_code_point (code_point_of_pair ch d) ++ TextEncoder_encode t
         else utf8_code_point REPLACEMENT ++ TextEncoder_encode (d :: t)
       else if is_low_surrogate ch
            then utf8_code_point REPLACEMENT ++ TextEncoder_encode (d :: t)
            else utf8_code_point ch ++ TextEncoder_encode (d :: t)).
    rewrite IH0, IH1.
    destruct (is_high_surrogate ch); [destruct (is_low_surrogate d)|
                                      destruct (is_low_surrogate ch)];
      rewrite app_assoc; reflexivity.
Qed.

Lemma byte_of_LF (n : N) : byte_of n = x0a -> n = 10%N.
Proof.
  unfold byte_of. destruct (Byte.of_N n) as [b|] eqn:Hb; [|discriminate].
  intros ->. apply Byte.to_of_N in Hb. symmetry. exact Hb.
Qed.

Lemma utf8_no_LF (cp : N) : cp <> 10%N -> ~ In x0a (utf8_code_point cp).
Proof.
  intros Hcp Hin. unfold utf8_code_point in Hin.
  destruct (cp <? 128)%N; [|destruct (cp <? 2048)%N; [|destruct (cp <? 65536)%N]];
    cbn [In] in Hin;
    repeat match goal with
           | H : _ \/ _ |- _ => destruct H as [H|H]
           | H : byte_of _ = x0a |- _ => apply byte_of_LF in H
           | H : False |- _ => contradiction
           end; div_lia.
Qed.

Lemma encode_no_LF (t : jsstring) :
  no_newline t = true -> ~ In x0a (TextEncoder_encode t).
Proof.
  unfold no_newline.
  induction t as [| ch | ch d t IH0 IH1] using pair_induction; intros Hfree Hin.
  - contradiction.
  - simpl in Hfree. rewrite andb_true_r in Hfree.
    apply negb_true_iff, N.eqb_neq in Hfree.
    cbn [TextEncoder_encode] in Hin.
    destruct (is_high_surrogate ch); [|destruct (is_low_surrogate ch)];
      try rewrite app_nil_r in Hin;
      first [ exact (utf8_no_LF ch Hfree Hin)
            | apply (utf8_no_LF REPLACEMENT); [discriminate | exact Hin] ].
  - cbn [forallb] in Hfree. apply andb_true_iff in Hfree. destruct Hfree as [Hch Hrest].
    assert (Ht : forallb (fun c => negb (N.eqb c LF)) t = true).
    { cbn [forallb] in Hrest. apply andb_true_iff in Hrest. apply Hrest. }
    apply negb_true_iff, N.eqb_neq in Hch.
    change (TextEncoder_encode (ch :: d :: t)) with
      (if is_high_surrogate ch then
         if is_low_surrogate d
         then utf8_code_point (code_point_of_pair ch d) ++ TextEncoder_encode t
         else utf8_code_point REPLACEMENT ++ TextEncoder_encode (d :: t)
       else if is_low_surrogate ch
            then utf8_code_point REPLACEMENT ++ TextEncoder_encode (d :: t)
            else utf8_code_point ch ++ TextEncoder_encode (d :: t)) in Hin.
    destruct (is_high_surrogate ch); [destruct (is_low_surrogate d)|
                                      destruct (is_low_surrogate ch)];
      apply in_app_or in Hin; destruct Hin as [Hin|Hin];
      try (exact (IH0 Ht Hin)); try (exact (IH1 Hrest Hin)).
    + apply (utf8_no_LF (code_point_of_pair ch d)); [|exact Hin].
      unfold code_point_of_pair. lia.
    + apply (utf8_no_LF REPLACEMENT); [discriminate | exact Hin].
    + apply (utf8_no_LF REPLACEMENT); [discriminate | exact Hin].
    + exact (utf8_no_LF ch Hch Hin).
Qed.

Lemma hex_digit_no_LF (d : N) : negb (N.eqb (hex_digit d) LF) = true.
Proof.
  apply negb_true_iff, N.eqb_neq. unfold hex_digit, LF.
  destruct (d <? 10)%N; lia.
Qed.

Lemma unicode_escape_no_LF (c : char16) : no_newline (unicode_escape c) = true.
Proof.
  unfold no_newline, unicode_escape. cbn [forallb].
  rewrite !hex_digit_no_LF. reflexivity.
Qed.

Lemma quote_unit_no_LF (c : char16) : no_newline (quote_unit c) = true.
Proof.
  unfold quote_unit.
  repeat match goal with
         | |- context [N.eqb c ?k] => destruct (N.eqb_spec c k); [reflexivity|]
         end.
  destruct ((c <? 32)%N || is_high_surrogate c || is_low_surrogate c) eqn:Hescape.
  - apply unicode_escape_no_LF.
  - unfold no_newline. cbn [forallb]. rewrite andb_true_r.
    apply negb_true_iff, N.eqb_neq. unfold LF. assumption.
Qed.

Lemma no_newline_app (a b : jsstring) :
  no_newline (a ++ b) = no_newline a && no_newline b.
Proof. apply forallb_app. Qed.

Lemma quote_body_no_LF (s : jsstring) : no_newline (quote_body s) = true.
Proof.
  induction s as [| c | c d s IH0 IH1] using pair_induction.
  - reflexivity.
  - cbn [quote_body]. destruct (is_high_surrogate c).
    + apply unicode_escape_no_LF.
    + rewrite app_nil_r. apply quote_unit_no_LF.
  - change (quote_body (c :: d :: s)) with
      (if is_high_surrogate c then
         if is_low_surrogate d then c :: d :: quote_body s
         else unicode_escape c ++ quote_body (d :: s)
       else quote_unit c ++ quote_body (d :: s)).
    destruct (is_high_surrogate c) eqn:Hhigh; [destruct (is_low_surrogate d) eqn:Hlow|].
    + pose proof (surrogate_range c (or_introl Hhigh)).
      pose proof (surrogate_range d (or_intror Hlow)).
      unfold no_newline. cbn [forallb]. fold (no_newline (quote_body s)). rewrite IH0.
      rewrite andb_true_r. apply andb_true_iff.
      split; apply negb_true_iff, N.eqb_neq; unfold LF; lia.
    + rewrite no_newline_app, unicode_escape_no_LF, IH1. reflexivity.
    + rewrite no_newline_app, quote_unit_no_LF, IH1. reflexivity.
Qed.

Lemma digits_no_LF (t : jsstring) : forallb is_digit t = true -> no_newline t = true.
Proof.
  apply forallb_weaken. intros c Hc. apply digit_range in Hc.
  apply negb_true_iff, N.eqb_neq. unfold LF. lia.
Qed.

Lemma digits_below_surrogates (t : jsstring) :
  forallb is_digit t = true -> below_surrogates t = true.
Proof.
  apply forallb_weaken. intros c Hc. apply digit_range in Hc.
  apply N.ltb_lt. lia.
Qed.

Lemma content_record_line (content : jsstring) :
  one_line (TextEncoder_encode (record_text "0" (Some (JStr content)))).
Proof.
  exists (TextEncoder_encode (lit "0:" ++ quote content)). split.
  - rewrite <- encode_then_LF. unfold record_text, stringify_in_template, stringify.
    rewrite <- !app_assoc. reflexivity.
  - apply encode_no_LF. unfold quote.
    change (lit "0:" ++ DQUOTE :: quote_body content ++ [DQUOTE])
      with (lit "0:" ++ [DQUOTE] ++ quote_body content ++ [DQUOTE]).
    rewrite !no_newline_app, quote_body_no_LF. reflexivity.
Qed.

Lemma finish_record_line (message : jsstring) : one_line (finish_chunk message).
Proof.
  exists (TextEncoder_encode (lit "e" ++ lit ":" ++ stringify (finish_event message))). split.
  - rewrite <- encode_then_LF. unfold finish_chunk, record_text, stringify_in_template.
    rewrite <- !app_assoc. reflexivity.
  - apply encode_no_LF. rewrite finish_event_text. rewrite !no_newline_app.
    rewrite (digits_no_LF _ (decimal_Z_digits (length message))). reflexivity.
Qed.

Lemma done_record_line (message : jsstring) : one_line (done_chunk message).
Proof.
  exists (TextEncoder_encode (lit "d" ++ lit ":" ++ stringify (done_event message))). split.
  - rewrite <- encode_then_LF. unfold done_chunk, record_text, stringify_in_template.
    rewrite <- !app_assoc. reflexivity.
  - apply encode_no_LF. rewrite done_event_text. rewrite !no_newline_app.
    rewrite (digits_no_LF _ (decimal_Z_digits (length message))). reflexivity.
Qed.

Lemma ascii_well_formed (t : jsstring) :
  below_surrogates t = true -> well_formed t = true.
Proof.
  unfold below_surrogates. induction t as [|c t IH]; [reflexivity|].
  cbn [forallb]. intros H. apply andb_true_iff in H. destruct H as [Hc Ht].
  apply N.ltb_lt in Hc. rewrite well_formed_ascii by assumption. exact (IH Ht).
Qed.

Lemma below_surrogates_app (a b : jsstring) :
  below_surrogates (a ++ b) = below_surrogates a && below_surrogates b.
Proof. apply forallb_app. Qed.

Lemma finish_record_decodes (message : jsstring) :
  TextDecoder_decode (finish_chunk message) =
  Some (record_text "e" (Some (finish_event message))).
Proof.
  unfold finish_chunk. apply decode_encode. apply ascii_well_formed.
  unfold record_text, stringify_in_template. rewrite finish_event_text.
  rewrite !below_surrogates_app.
  rewrite (digits_below_surrogates _ (decimal_Z_digits (length message))). reflexivity.
Qed.

Lemma done_record_decodes (message : jsstring) :
  TextDecoder_decode (done_chunk message) =
  Some (record_text "d" (Some (done_event message))).
Proof.
  unfold done_chunk. apply decode_encode. apply ascii_well_formed.
  unfold record_text, stringify_in_template. rewrite done_event_text.
  rewrite !below_surrogates_app.
  rewrite (digits_below_surrogates _ (decimal_Z_digits (length message))). reflexivity.
Qed.

Lemma content_records_decode (contents : list jsstring) :
  Forall code_units contents ->
  List.map TextDecoder_decode
    (List.map (fun content => TextEncoder_encode (record_text "0" (Some (JStr content))))
              contents) =
  List.map Some (List.map (fun content => record_text "0" (Some (JStr content))) contents).
Proof.
  intros Hall. induction Hall as [|content rest Hcontent _ IH]; [reflexivity|].
  cbn [List.map]. rewrite IH.
  rewrite decode_encode by (apply content_record_well_formed; assumption).
  reflexivity.
Qed.

(** * The claims *)


(** C3 — For every response message, the empty one included, [start]
    enqueues the [0:] content records (at least one), then exactly one [e:]
    record, then exactly one [d:] record, and closes the stream; on the
    closed stream every further [enqueue] (and [close]) throws, so no record
    can follow. *)
Theorem C3_stream_ends_with_finish_then_done (message : jsstring) (c : console) :
  exists stream contents,
    start message new_controller c = (Returned stream, c)
    /\ queue stream = contents ++ [finish_chunk message; done_chunk message]
    /\ contents <> []
    /\ Forall (fun chunk => tag_of chunk = Some TAG_CONTENT) contents
    /\ tag_of (finish_chunk message) = Some TAG_FINISH
    /\ tag_of (done_chunk message) = Some TAG_DONE
    /\ List.filter (has_tag TAG_FINISH) (queue stream) = [finish_chunk message]
    /\ List.filter (has_tag TAG_DONE) (queue stream) = [done_chunk message]
    /\ closed stream = true
    /\ (forall chunk c', enqueue chunk stream c' = (Thrown stream_closed_error, c'))
    /\ (forall c', close stream c' = (Thrown stream_closed_error, c')).
Proof.
  eexists. exists (content_chunks message).
  split; [apply start_emits|]. simpl.
  pose proof (content_chunks_tagged message) as Htags.
  repeat split; try reflexivity; try exact Htags.
  - intros Hnil. apply (f_equal (@length _)) in Hnil.
    rewrite content_chunks_length in Hnil.
    pose proof (split_on_not_nil LF message) as Hne.
    destruct (split_on LF message); [contradiction|discriminate].
  - rewrite filter_app, filter_tag_none by (assumption || discriminate).
    reflexivity.
  - rewrite filter_app, filter_tag_none by (assumption || discriminate).
    reflexivity.
Qed.

(** C5 — Whatever the response message, the [e:] and the [d:] record carry
    finish reason "stop" and a usage with promptTokens 10 and
    completionTokens equal to the [.length] of the message (its number of
    UTF-16 code units); the [e:] payload has in addition isContinued false,
    the [d:] payload has no such member.  The wire text of both is given. *)
Theorem C5_trailer_payloads (message : jsstring) (c : console) :
  exists stream contents,
    start message new_controller c = (Returned stream, c)
    /\ queue stream =
       contents ++ [TextEncoder_encode (record_text "e" (Some (finish_event message)));
                    TextEncoder_encode (record_text "d" (Some (done_event message)))]
    /\ Forall (fun chunk => tag_of chunk = Some TAG_CONTENT) contents
    /\ member "finishReason" (Some (finish_event message)) = Some (JStr (lit "stop"))
    /\ member "promptTokens" (member "usage" (Some (finish_event message))) = Some (JNum 10)
    /\ member "completionTokens" (member "usage" (Some (finish_event message)))
       = Some (JNum (Z.of_nat (length message)))
    /\ member "isContinued" (Some (finish_event message)) = Some (JBool false)
    /\ member "finishReason" (Some (done_event message)) = Some (JStr (lit "stop"))
    /\ member "usage" (Some (done_event message)) = member "usage" (Some (finish_event message))
    /\ member "isContinued" (Some (done_event message)) = None
    /\ record_text "e" (Some (finish_event message)) =
       lit "e:{" ++ quoted "finishReason" ++ lit ":" ++ quoted "stop" ++ lit "," ++
       quoted "usage" ++ lit ":{" ++ quoted "promptTokens" ++ lit ":10," ++
       quoted "completionTokens" ++ lit ":" ++ decimal_Z (Z.of_nat (length message)) ++
       lit "}," ++ quoted "isContinued" ++ lit ":false}" ++ [LF]
    /\ record_text "d" (Some (done_event message)) =
       lit "d:{" ++ quoted "finishReason" ++ lit ":" ++ quoted "stop" ++ lit "," ++
       quoted "usage" ++ lit ":{" ++ quoted "promptTokens" ++ lit ":10," ++
       quoted "completionTokens" ++ lit ":" ++ decimal_Z (Z.of_nat (length message)) ++
       lit "}}" ++ [LF].
Proof.
  eexists. exists (content_chunks message).
  split; [apply start_emits|]. simpl queue.
  repeat split; try reflexivity.
  - apply content_chunks_tagged.
  - unfold record_text, stringify_in_template. rewrite finish_event_text.
    simpl. rewrite <- !app_assoc. reflexivity.
  - unfold record_text, stringify_in_template. rewrite done_event_text.
    simpl. rewrite <- !app_assoc. reflexivity.
Qed.


(** C4 — When the auxiliary data carries no image reference ([data?.images]
    undefined, or the empty list), the response message is the fixed prompt,
    verbatim, and nothing is logged. *)
Theorem C4_default_prompt (w : World) (data : value) (c : console) :
  no_image_reference data ->
  response_message w data c =
  (Returned (lit "Please provide an image for object detection."), c).
Proof.
  intros Hnone. apply response_message_no_image.
  apply no_image_reference_fails_the_test. assumption.
Qed.

Lemma C4_default_prompt_witness :
  no_image_reference (Some (JObj [(lit "images", JArr [])]))
  /\ response_message (sample_world 200) (Some (JObj [(lit "images", JArr [])])) [] =
     (Returned (lit "Please provide an image for object detection."), []).
Proof.
  assert (H : no_image_reference (Some (JObj [(lit "images", JArr [])])))
    by (right; reflexivity).
  split; [exact H | exact (C4_default_prompt (sample_world 200) _ [] H)].
Defined.



(** C7 — When the detection service answers with a status outside 200-299,
    line 59 throws an [Error] whose message ends with that status in
    decimal; the enclosing [catch] logs it and renders it as it renders any
    other failure, so the message shows the status through the error text. *)
Theorem C7_rejection_is_reported
        (w : World) (data : value) (c c1 : console) (predictionResponse : fetch_response) :
  has_image w data = Returned true ->
  request_prediction w data c = (Returned predictionResponse, c1) ->
  ok predictionResponse = false ->
  try_block w data c = (Thrown (rejection_error predictionResponse), c1)
  /\ error_text (rejection_error predictionResponse) =
     lit "Prediction API error: " ++ decimal_N (status predictionResponse)
  /\ response_message w data c =
     (Returned (error_message (rejection_error predictionResponse)),
      c1 ++ [logged (rejection_error predictionResponse)])
  /\ contains (decimal_N (status predictionResponse))
              (error_message (rejection_error predictionResponse)).
Proof.
  intros Himage Hrequest Hrejected.
  assert (Hthrown : try_block w data c = (Thrown (rejection_error predictionResponse), c1)).
  { unfold try_block, bind. rewrite Hrequest, Hrejected. reflexivity. }
  split; [exact Hthrown|]. split; [reflexivity|].
  split; [apply response_message_caught; assumption|].
  apply contains_trans with (b := error_text (rejection_error predictionResponse)).
  - simpl. exists (lit "Prediction API error: "), []. rewrite app_nil_r. reflexivity.
  - apply error_message_text.
Qed.

Lemma C7_rejection_is_reported_witness :
  has_image (sample_world 500) sample_data = Returned true
  /\ request_prediction (sample_world 500) sample_data [] =
     (Returned {| status := 500; blob_bytes := Returned [];
                  json_body := Returned sample_result |}, [])
  /\ response_message (sample_world 500) sample_data [] =
     (Returned (error_header ++ [LF] ++ [LF] ++
                lit "Sorry, I encountered an error while processing your image: " ++
                lit "Prediction API error: 500" ++ [LF] ++ [LF] ++ service_hint),
      [(lit "Object detection error:", ErrorInstance (lit "Prediction API error: 500"))]).
Proof.
  assert (Himage : has_image (sample_world 500) sample_data = Returned true) by reflexivity.
  assert (Hrequest : request_prediction (sample_world 500) sample_data [] =
                     (Returned {| status := 500; blob_bytes := Returned [];
                                  json_body := Returned sample_result |}, []))
    by reflexivity.
  split; [exact Himage|]. split; [exact Hrequest|].
  exact (proj1 (proj2 (proj2
           (C7_rejection_is_reported (sample_world 500) sample_data [] [] _
                                     Himage Hrequest eq_refl)))).
Defined.

(** C6 — When the request to the detection service succeeds and its JSON
    body is a detection result with count [count] (an integer that is a
    double of its own, up to 2^53 in magnitude), labels [labels] and
    identifier [uid], the response message is the success report filled with
    the count in decimal, the labels joined by a comma and a space, and the
    identifier; each of the three occurs in it whole. *)
Theorem C6_success_report
        (w : World) (data : value) (c c1 : console) (predictionResponse : fetch_response)
        (fields : list (jsstring * json)) (count : Z) (labels : list jsstring)
        (uid : jsstring) :
  has_image w data = Returned true ->
  request_prediction w data c = (Returned predictionResponse, c1) ->
  ok predictionResponse = true ->
  json_body predictionResponse = Returned (JObj fields) ->
  (Z.abs count <= 2 ^ 53)%Z ->
  lookup (lit "detection_count") fields = Some (JNum count) ->
  lookup (lit "labels") fields = Some (JArr (List.map JStr labels)) ->
  lookup (lit "prediction_uid") fields = Some (JStr uid) ->
  exists message,
    response_message w data c = (Returned message, c1)
    /\ message = success_message (decimal_Z count) (join (lit ", ") labels) uid
                                 (decimal_Z count) (join (lit ", ") labels)
    /\ contains (lit "Detection Count:** " ++ decimal_Z count ++ [LF]) message
    /\ contains (lit "Detected Objects:** " ++ join (lit ", ") labels ++ [LF]) message
    /\ contains (lit "Prediction ID:** " ++ uid ++ [LF]) message.
Proof.
  intros Himage Hrequest Hok Hbody Hsafe Hcount Hlabels Huid.
  eexists. split; [|split; [reflexivity|]].
  - apply response_message_passed; [assumption|].
    unfold try_block, bind. rewrite Hrequest, Hok. cbn [negb]. cbv iota.
    unfold lift at 1. rewrite Hbody.
    apply format_result_record; try assumption.
    unfold safe_integer. apply Z.leb_le. exact Hsafe.
  - unfold success_message. repeat split.
    + exists (MAGNIFIER ++ lit " **Object Detection Results**" ++ [LF] ++ [LF] ++ lit "**").
      eexists. rewrite <- !app_assoc. reflexivity.
    + exists (MAGNIFIER ++ lit " **Object Detection Results**" ++ [LF] ++ [LF] ++
              lit "**Detection Count:** " ++ decimal_Z count ++ [LF] ++ lit "**").
      eexists. rewrite <- !app_assoc. reflexivity.
    + exists (MAGNIFIER ++ lit " **Object Detection Results**" ++ [LF] ++ [LF] ++
              lit "**Detection Count:** " ++ decimal_Z count ++ [LF] ++
              lit "**Detected Objects:** " ++ join (lit ", ") labels ++ [LF] ++ lit "**").
      eexists. rewrite <- !app_assoc. reflexivity.
Qed.

Lemma C6_success_report_witness :
  has_image (sample_world 200) sample_data = Returned true
  /\ exists message,
       response_message (sample_world 200) sample_data [] = (Returned message, [])
       /\ contains (lit "Detection Count:** 2" ++ [LF]) message
       /\ contains (lit "Detected Objects:** cat, dog" ++ [LF]) message
       /\ contains (lit "Prediction ID:** abc123" ++ [LF]) message.
Proof.
  assert (Himage : has_image (sample_world 200) sample_data = Returned true) by reflexivity.
  assert (Hsafe : (Z.abs 2 <= 2 ^ 53)%Z) by (vm_compute; discriminate).
  split; [exact Himage|].
  destruct (C6_success_report (sample_world 200) sample_data [] []
              {| status := 200; blob_bytes := Returned [];
                 json_body := Returned sample_result |}
              [(lit "detection_count", JNum 2);
               (lit "labels", JArr [JStr (lit "cat"); JStr (lit "dog")]);
               (lit "prediction_uid", JStr (lit "abc123"))]
              2 [lit "cat"; lit "dog"] (lit "abc123")
              Himage eq_refl eq_refl eq_refl Hsafe eq_refl eq_refl eq_refl)
    as [message [Hmessage [_ [Hcount [Hlabels Huid]]]]].
  exists message. repeat split; assumption.
Defined.




(** C10, as stated, fails: two bodies with the same auxiliary data that
    differ only in their conversation array; one conversation holds a [null]
    entry and the handler throws, the other is answered with a stream. *)
Lemma C10_counterexample :
  lookup (lit "data") [(lit "messages", JArr [JNull]); (lit "data", JObj [])] =
  lookup (lit "data") [(lit "messages", JArr []); (lit "data", JObj [])]
  /\ POST (sample_world 200)
          (Returned (JObj [(lit "messages", JArr [JNull]); (lit "data", JObj [])])) [] =
     (Thrown (TypeError_destructure "experimental_attachments" "message"), [])
  /\ POST (sample_world 200)
          (Returned (JObj [(lit "messages", JArr []); (lit "data", JObj [])])) [] =
     (Returned (response_for default_message), [])
  /\ POST (sample_world 200)
          (Returned (JObj [(lit "messages", JArr [JNull]); (lit "data", JObj [])])) [] <>
     POST (sample_world 200)
          (Returned (JObj [(lit "messages", JArr []); (lit "data", JObj [])])) [].
Proof.
  split; [reflexivity|]. split; [reflexivity|].
  assert (H : POST (sample_world 200)
                (Returned (JObj [(lit "messages", JArr []); (lit "data", JObj [])])) [] =
              (Returned (response_for default_message), [])).
  { eapply POST_after_normalize; reflexivity. }
  split; [exact H|]. rewrite H. discriminate.
Qed.

(** C10 (amended) — For two request bodies with the same auxiliary data
    whose conversation lists are arrays without [null] entries, whatever
    those conversations and the selected models are, the handler returns the
    same response (the same chunks, the same headers) and logs the same. *)
Theorem C10_response_ignores_conversation
        (w : World) (fields1 fields2 : list (jsstring * json))
        (items1 items2 : list json) (c : console) :
  lookup (lit "data") fields1 = lookup (lit "data") fields2 ->
  lookup (lit "messages") fields1 = Some (JArr items1) ->
  Forall (fun message => message <> JNull) items1 ->
  lookup (lit "messages") fields2 = Some (JArr items2) ->
  Forall (fun message => message <> JNull) items2 ->
  POST w (Returned (JObj fields1)) c = POST w (Returned (JObj fields2)) c.
Proof.
  intros Hdata Hmessages1 Hall1 Hmessages2 Hall2.
  pose proof (normalize_returns fields1 items1 c Hmessages1 Hall1) as Hnormalize1.
  pose proof (normalize_returns fields2 items2 c Hmessages2 Hall2) as Hnormalize2.
  rewrite (POST_as_answer w _ c c _ _ _ Hnormalize1).
  rewrite (POST_as_answer w _ c c _ _ _ Hnormalize2).
  rewrite Hdata. reflexivity.
Qed.

Lemma C10_response_ignores_conversation_witness :
  Forall (fun message => message <> JNull) [JObj sample_message_record]
  /\ POST (sample_world 200)
          (Returned (JObj [(lit "messages", JArr [JObj sample_message_record]);
                           (lit "selectedModel", JStr (lit "llama3"));
                           (lit "data", sample_data_object)])) [] =
     POST (sample_world 200)
          (Returned (JObj [(lit "messages", JArr []);
                           (lit "data", sample_data_object)])) [].
Proof.
  assert (Hall : Forall (fun message : json => message <> JNull)
                        [JObj sample_message_record])
    by (constructor; [discriminate | constructor]).
  split; [exact Hall|].
  exact (C10_response_ignores_conversation (sample_world 200)
           [(lit "messages", JArr [JObj sample_message_record]);
            (lit "selectedModel", JStr (lit "llama3"));
            (lit "data", sample_data_object)]
           [(lit "messages", JArr []); (lit "data", sample_data_object)]
           [JObj sample_message_record] [] []
           eq_refl eq_refl Hall eq_refl (Forall_nil _)).
Defined.

(** C2 — For every response message (a string of 16-bit code units, blank
    lines included), the [0:] records that [start] enqueues are the lines of
    the message, each with its newline back and the last one bare, JSON
    quoted and UTF-8 encoded; decoding the bytes of each record, parsing its
    string literal and concatenating the results gives the message back. *)
Theorem C2_content_records_round_trip (message : jsstring) (c : console) :
  code_units message ->
  exists stream,
    start message new_controller c = (Returned stream, c)
    /\ List.filter (has_tag TAG_CONTENT) (queue stream) =
       List.map (fun content =>
                   TextEncoder_encode (record_text "0" (Some (JStr content))))
                (with_newlines (split_on LF message))
    /\ read_all (List.filter (has_tag TAG_CONTENT) (queue stream)) =
       Some (with_newlines (split_on LF message))
    /\ List.concat (with_newlines (split_on LF message)) = message
    /\ reassemble stream = Some message.
Proof.
  intros Hunits. eexists. split; [apply start_emits|].
  assert (Hfilter :
            List.filter (has_tag TAG_CONTENT)
              (content_chunks message ++ [finish_chunk message; done_chunk message]) =
            content_chunks message).
  { rewrite filter_app, (filter_tag_all _ (content_chunks_tagged message)).
    cbn [List.filter]. unfold has_tag. rewrite finish_chunk_tag, done_chunk_tag.
    simpl. apply app_nil_r. }
  cbn [queue]. rewrite Hfilter.
  split; [apply content_chunks_with_newlines|]. split; [|split].
  - rewrite content_chunks_with_newlines.
    apply read_all_records. apply with_newlines_code_units. assumption.
  - apply concat_with_newlines.
  - apply reassemble_start. assumption.
Qed.

Lemma C2_content_records_round_trip_witness :
  code_units (MAGNIFIER ++ lit " a" ++ [LF; LF] ++ lit "b")
  /\ exists stream,
       start (MAGNIFIER ++ lit " a" ++ [LF; LF] ++ lit "b") new_controller [] =
         (Returned stream, [])
       /\ reassemble stream = Some (MAGNIFIER ++ lit " a" ++ [LF; LF] ++ lit "b").
Proof.
  assert (Hunits : code_units (MAGNIFIER ++ lit " a" ++ [LF; LF] ++ lit "b"))
    by (repeat constructor).
  split; [exact Hunits|].
  destruct (C2_content_records_round_trip
              (MAGNIFIER ++ lit " a" ++ [LF; LF] ++ lit "b") [] Hunits)
    as [stream [Hstart [_ [_ [_ Hback]]]]].
  exists stream. split; assumption.
Defined.

(** * Further properties of the handler *)

(** ** The pipeline step by step *)

(** Once the image is downloaded and stored, the detection service is asked
    at [http://<YOLO_SERVICE>/predict?img=uploads%2F<now>-image.jpeg]: the
    object is stored under [uploads/<now>-image.jpeg] with content type
    [image/jpeg], the slash is the only character of the key that is
    escaped, and encoding the key does not throw. *)
Theorem detection_service_is_asked_for_the_stored_key
        (w : World) (data : value) (c : console)
        (response : fetch_response) (buffer : list byte) :
  has_image w data = Returned true ->
  fetch w (image_url data) HttpGet = Returned response ->
  blob_bytes response = Returned buffer ->
  s3_send w {| Bucket := env_S3_BUCKET_NAME w;
               Key := lit "uploads/" ++ decimal_N (Date_now w) ++ lit "-image.jpeg";
               Body := buffer;
               ContentType := lit "image/jpeg" |} = Returned tt ->
  encodeURIComponent (lit "uploads/" ++ decimal_N (Date_now w) ++ lit "-image.jpeg") =
    Returned (lit "uploads%2F" ++ decimal_N (Date_now w) ++ lit "-image.jpeg")
  /\ request_prediction w data c =
     (fetch w (Some (JStr (lit "http://" ++ env_text (env_YOLO_SERVICE w) ++
                           lit "/predict?img=uploads%2F" ++
                           decimal_N (Date_now w) ++ lit "-image.jpeg")))
            HttpPost, c).
Proof.
  intros Himage Hfetch Hblob Hupload.
  split; [apply (encodeURIComponent_file_key w)|].
  rewrite request_prediction_steps by assumption.
  unfold download. rewrite Hfetch, Hblob.
  unfold upload_command, file_key. rewrite Hupload.
  unfold prediction_url. reflexivity.
Qed.

Lemma detection_service_is_asked_for_the_stored_key_witness :
  has_image (sample_world 200) sample_data = Returned true
  /\ request_prediction (sample_world 200) sample_data [] =
     (fetch (sample_world 200)
            (Some (JStr (lit "http://yolo:8080/predict?img=uploads%2F1700000000000-image.jpeg")))
            HttpPost, []).
Proof.
  assert (Himage : has_image (sample_world 200) sample_data = Returned true) by reflexivity.
  split; [exact Himage|].
  exact (proj2 (detection_service_is_asked_for_the_stored_key
                  (sample_world 200) sample_data [] image_response [xff; xd8]
                  Himage eq_refl eq_refl eq_refl)).
Defined.

(** When the image cannot be downloaded (the fetch or the reading of its
    body throws), the answer is the error report for that very error, which
    is logged once; neither the storage nor the detection service has any
    say in it. *)
Theorem download_failure_is_reported
        (w : World) (data : value) (c : console) (e : thrown) :
  has_image w data = Returned true ->
  download w data = Thrown e ->
  response_message w data c = (Returned (error_message e), c ++ [logged e]).
Proof.
  intros Himage Hdownload. apply response_message_caught; [assumption|].
  apply try_block_request_failed.
  rewrite request_prediction_steps by assumption. rewrite Hdownload. reflexivity.
Qed.

Lemma download_failure_is_reported_witness :
  has_image offline_world sample_data = Returned true
  /\ download offline_world sample_data = Thrown (NonError (Some (JStr (lit "offline"))))
  /\ response_message offline_world sample_data [] =
     (Returned (error_message (NonError (Some (JStr (lit "offline"))))),
      [logged (NonError (Some (JStr (lit "offline"))))]).
Proof.
  assert (Himage : has_image offline_world sample_data = Returned true) by reflexivity.
  assert (Hdownload : download offline_world sample_data =
                      Thrown (NonError (Some (JStr (lit "offline"))))) by reflexivity.
  split; [exact Himage|]. split; [exact Hdownload|].
  exact (download_failure_is_reported offline_world sample_data [] _ Himage Hdownload).
Defined.

(** When the upload to storage throws, the answer is the error report for
    that error and the detection service is not consulted: the result holds
    whatever the second [fetch] would answer. *)
Theorem upload_failure_is_reported
        (w : World) (data : value) (c : console) (buffer : list byte) (e : thrown) :
  has_image w data = Returned true ->
  download w data = Returned buffer ->
  s3_send w (upload_command w buffer) = Thrown e ->
  response_message w data c = (Returned (error_message e), c ++ [logged e]).
Proof.
  intros Himage Hdownload Hupload. apply response_message_caught; [assumption|].
  apply try_block_request_failed.
  rewrite request_prediction_steps by assumption.
  rewrite Hdownload, Hupload. reflexivity.
Qed.

Lemma upload_failure_is_reported_witness :
  has_image (scripted_world (Thrown (ErrorInstance (lit "Access Denied")))
                            (answer_with (Returned sample_result)))
            sample_data = Returned true
  /\ response_message (scripted_world (Thrown (ErrorInstance (lit "Access Denied")))
                                      (answer_with (Returned sample_result)))
                      sample_data [] =
     (Returned (error_message (ErrorInstance (lit "Access Denied"))),
      [logged (ErrorInstance (lit "Access Denied"))]).
Proof.
  split; [reflexivity|].
  exact (upload_failure_is_reported
           (scripted_world (Thrown (ErrorInstance (lit "Access Denied")))
                           (answer_with (Returned sample_result)))
           sample_data [] [xff; xd8] _ eq_refl eq_refl eq_refl).
Defined.

(** A 2xx answer of the detection service whose body is not JSON is an
    error report carrying what [json()] threw. *)
Theorem unparsable_answer_is_reported
        (w : World) (data : value) (c c1 : console)
        (predictionResponse : fetch_response) (e : thrown) :
  has_image w data = Returned true ->
  request_prediction w data c = (Returned predictionResponse, c1) ->
  ok predictionResponse = true ->
  json_body predictionResponse = Thrown e ->
  response_message w data c = (Returned (error_message e), c1 ++ [logged e]).
Proof.
  intros Himage Hrequest Hok Hbody. apply response_message_caught; [assumption|].
  rewrite (try_block_after_request w data c c1 predictionResponse Hrequest Hok).
  rewrite Hbody. reflexivity.
Qed.

Lemma unparsable_answer_is_reported_witness :
  ok (answer_with (Thrown (ErrorInstance (lit "Unexpected token < in JSON")))) = true
  /\ response_message
       (scripted_world (Returned tt)
                       (answer_with (Thrown (ErrorInstance (lit "Unexpected token < in JSON")))))
       sample_data [] =
     (Returned (error_message (ErrorInstance (lit "Unexpected token < in JSON"))),
      [logged (ErrorInstance (lit "Unexpected token < in JSON"))]).
Proof.
  split; [reflexivity|].
  exact (unparsable_answer_is_reported
           (scripted_world (Returned tt)
                           (answer_with (Thrown (ErrorInstance (lit "Unexpected token < in JSON")))))
           sample_data [] [] _ _ eq_refl eq_refl eq_refl eq_refl).
Defined.

(** Whenever the detection service answers 2xx with an object that has a
    [labels] array, and the labels, the count and the identifier have a
    text under [ToString] (no object among them with a [toString] member of
    its own), the answer is a success report, whatever else the object
    holds: a missing count or identifier reads "undefined" and a [null]
    label is an empty entry of the joined list. *)
Theorem convertible_labelled_answer_is_a_success
        (w : World) (data : value) (c c1 : console)
        (predictionResponse : fetch_response)
        (fields : list (jsstring * json)) (items : list json) :
  has_image w data = Returned true ->
  request_prediction w data c = (Returned predictionResponse, c1) ->
  ok predictionResponse = true ->
  json_body predictionResponse = Returned (JObj fields) ->
  lookup (lit "labels") fields = Some (JArr items) ->
  converts (JArr items) = true ->
  value_converts (lookup (lit "detection_count") fields) = true ->
  value_converts (lookup (lit "prediction_uid") fields) = true ->
  exists count labels uid,
    interpolate w (lookup (lit "detection_count") fields) = Returned count
    /\ join_items w (lit ", ") items = Returned labels
    /\ interpolate w (lookup (lit "prediction_uid") fields) = Returned uid
    /\ response_message w data c =
       (Returned (success_message count labels uid count labels), c1).
Proof.
  intros Himage Hrequest Hok Hbody Hlabels Hitems Hcount Huid.
  destruct (format_result_labels w fields items c1 Hlabels Hitems Hcount Huid)
    as [count [labels [uid [Hc [Hl [Hu Hformat]]]]]].
  exists count, labels, uid. repeat split; try assumption.
  apply response_message_passed; [assumption|].
  rewrite (try_block_after_request w data c c1 predictionResponse Hrequest Hok).
  rewrite Hbody. exact Hformat.
Qed.

Lemma convertible_labelled_answer_is_a_success_witness :
  converts (JArr [JStr (lit "cat"); JNull]) = true
  /\ exists count labels uid,
       interpolate (scripted_world (Returned tt)
                      (answer_with (Returned (JObj [(lit "labels",
                                                     JArr [JStr (lit "cat"); JNull])]))))
                   None = Returned count
       /\ count = lit "undefined"
       /\ labels = lit "cat, "
       /\ response_message
            (scripted_world (Returned tt)
               (answer_with (Returned (JObj [(lit "labels",
                                              JArr [JStr (lit "cat"); JNull])]))))
            sample_data [] =
          (Returned (success_message count labels uid count labels), []).
Proof.
  split; [reflexivity|].
  destruct (convertible_labelled_answer_is_a_success
              (scripted_world (Returned tt)
                 (answer_with (Returned (JObj [(lit "labels",
                                                JArr [JStr (lit "cat"); JNull])]))))
              sample_data [] [] _ [(lit "labels", JArr [JStr (lit "cat"); JNull])]
              [JStr (lit "cat"); JNull]
              eq_refl eq_refl eq_refl eq_refl eq_refl eq_refl eq_refl eq_refl)
    as [count [labels [uid [Hc [Hl [Hu Hmessage]]]]]].
  exists count, labels, uid.
  split; [exact Hc|].
  split; [injection Hc as <-; reflexivity|].
  split; [injection Hl as <-; reflexivity|].
  exact Hmessage.
Defined.

(** A 2xx answer without a [labels] array ([null], a non-object, a missing
    or non-array member) is never a success report: reading the labels
    throws inside the [try] block and the answer is an error report. *)
Theorem answer_without_labels_is_an_error
        (w : World) (data : value) (c c1 : console)
        (predictionResponse : fetch_response) (predictionResult : json) :
  has_image w data = Returned true ->
  request_prediction w data c = (Returned predictionResponse, c1) ->
  ok predictionResponse = true ->
  json_body predictionResponse = Returned predictionResult ->
  (forall items, member "labels" (Some predictionResult) <> Some (JArr items)) ->
  exists e,
    response_message w data c = (Returned (error_message e), c1 ++ [logged e]).
Proof.
  intros Himage Hrequest Hok Hbody Hnot.
  destruct (format_result_without_labels w predictionResult c1 Hnot) as [e Hthrown].
  exists e. apply response_message_caught; [assumption|].
  rewrite (try_block_after_request w data c c1 predictionResponse Hrequest Hok).
  rewrite Hbody. exact Hthrown.
Qed.

Lemma answer_without_labels_is_an_error_witness :
  (forall items,
      member "labels" (Some (JObj [(lit "detection_count", JNum 0)])) <> Some (JArr items))
  /\ exists e,
       response_message
         (scripted_world (Returned tt)
            (answer_with (Returned (JObj [(lit "detection_count", JNum 0)]))))
         sample_data [] =
       (Returned (error_message e), [logged e]).
Proof.
  assert (Hnot : forall items,
             member "labels" (Some (JObj [(lit "detection_count", JNum 0)])) <>
             Some (JArr items)) by (intros items; discriminate).
  split; [exact Hnot|].
  exact (answer_without_labels_is_an_error
           (scripted_world (Returned tt)
              (answer_with (Returned (JObj [(lit "detection_count", JNum 0)]))))
           sample_data [] [] _ _ eq_refl eq_refl eq_refl eq_refl Hnot).
Defined.

(** What lines 22-83 can end in.  Either the comparison of line 25 throws,
    and then that error leaves the handler with nothing logged; or there is
    a message of one of three shapes, and the console tells which: the fixed
    prompt (the test failed, nothing logged), a success report (nothing
    logged), or an error report (the error logged once).  The three shapes
    exclude each other, since they start with different characters. *)
Theorem message_shapes (w : World) (data : value) (c : console) :
  ((exists e,
      has_image w data = Thrown e
      /\ response_message w data c = (Thrown e, c))
   \/ (has_image w data = Returned false
       /\ response_message w data c = (Returned default_message, c))
   \/ (has_image w data = Returned true
       /\ exists count labels uid,
            response_message w data c =
            (Returned (success_message count labels uid count labels), c))
   \/ (has_image w data = Returned true
       /\ exists e,
            response_message w data c =
            (Returned (error_message e), c ++ [logged e])))
  /\ (forall e, error_message e <> default_message)
  /\ (forall count labels uid count' labels',
        success_message count labels uid count' labels' <> default_message)
  /\ (forall e count labels uid count' labels',
        success_message count labels uid count' labels' <> error_message e).
Proof.
  split; [|repeat split; intros; discriminate].
  destruct (has_image w data) as [[|]|e] eqn:Himage.
  - right. right.
    destruct (try_block_shape w data c) as [[e He] | [count [labels [uid Hs]]]].
    + right. split; [reflexivity|]. exists e.
      apply response_message_caught; assumption.
    + left. split; [reflexivity|]. exists count, labels, uid.
      apply response_message_passed; assumption.
  - right. left. split; [reflexivity|]. apply response_message_no_image. assumption.
  - left. exists e. split; [reflexivity|]. apply response_message_thrown. assumption.
Qed.

(** The status of the image download is never looked at: whatever code the
    image server answers with (a 404 page included), the body is stored and
    analysed, and the response message is the same. *)
Theorem image_status_is_not_checked
        (code : N) (w : World) (data : value) (c : console) :
  response_message (with_image_status code w) data c = response_message w data c.
Proof.
  unfold response_message, bind, lift. rewrite has_image_same_engine.
  destruct (has_image w data) as [[|]|e]; try reflexivity.
  unfold detection_pipeline, try_catch. rewrite try_block_same_status. reflexivity.
Qed.

(** Of a list of images only the first is used: two requests whose image
    lists start with the same entry get the same answer, whatever follows
    in the lists and whatever else the auxiliary data holds. *)
Theorem only_the_first_image_is_used
        (w : World) (fields fields' : list (jsstring * json))
        (first : json) (rest rest' : list json) (c : console) :
  lookup (lit "images") fields = Some (JArr (first :: rest)) ->
  lookup (lit "images") fields' = Some (JArr (first :: rest')) ->
  response_message w (Some (JObj fields)) c = response_message w (Some (JObj fields')) c.
Proof.
  intros Himages Himages'.
  rewrite !response_message_enters by (eapply has_image_list; eassumption).
  unfold detection_pipeline, try_catch.
  rewrite (try_block_reads_first w (Some (JObj fields)) (Some (JObj fields')) c);
    try reflexivity.
  cbn [optional_images]. rewrite Himages, Himages'. reflexivity.
Qed.

Lemma only_the_first_image_is_used_witness :
  response_message (sample_world 200)
    (Some (JObj [(lit "images", JArr [JStr (lit "http://x/a.jpg"); JStr (lit "http://x/b.jpg")])]))
    [] =
  response_message (sample_world 200)
    (Some (JObj [(lit "note", JNull); (lit "images", JArr [JStr (lit "http://x/a.jpg")])]))
    [].
Proof.
  exact (only_the_first_image_is_used (sample_world 200)
           [(lit "images", JArr [JStr (lit "http://x/a.jpg"); JStr (lit "http://x/b.jpg")])]
           [(lit "note", JNull); (lit "images", JArr [JStr (lit "http://x/a.jpg")])]
           (JStr (lit "http://x/a.jpg")) [JStr (lit "http://x/b.jpg")] [] []
           eq_refl eq_refl).
Defined.

(** An [images] member that is a bare string and not a list passes the
    test of line 25 as soon as it is not empty, and [images[0]] is then its
    first character: the request is treated as if the image list held that
    one character as its URL. *)
Theorem string_images_means_its_first_character
        (w : World) (fields : list (jsstring * json))
        (ch : char16) (s : jsstring) (c : console) :
  lookup (lit "images") fields = Some (JStr (ch :: s)) ->
  has_image w (Some (JObj fields)) = Returned true
  /\ image_url (Some (JObj fields)) = Some (JStr [ch])
  /\ response_message w (Some (JObj fields)) c =
     response_message w (Some (JObj [(lit "images", JArr [JStr [ch]])])) c.
Proof.
  intros Himages.
  pose proof (has_image_string w fields ch s Himages) as Himage.
  split; [exact Himage|]. split.
  - unfold image_url. cbn [optional_images]. rewrite Himages. reflexivity.
  - rewrite response_message_enters by assumption.
    rewrite response_message_enters
      by (apply (has_image_list w _ (JStr [ch]) []); reflexivity).
    unfold detection_pipeline, try_catch.
    rewrite (try_block_reads_first w (Some (JObj fields))
               (Some (JObj [(lit "images", JArr [JStr [ch]])])) c);
      try reflexivity.
    cbn [optional_images]. rewrite Himages. reflexivity.
Qed.

Lemma string_images_means_its_first_character_witness :
  image_url (Some (JObj [(lit "images", JStr (lit "http://x/img.jpg"))])) =
    Some (JStr (lit "h"))
  /\ response_message (sample_world 200)
       (Some (JObj [(lit "images", JStr (lit "http://x/img.jpg"))])) [] =
     response_message (sample_world 200)
       (Some (JObj [(lit "images", JArr [JStr (lit "h")])])) [].
Proof.
  exact (proj2 (string_images_means_its_first_character (sample_world 200)
                  [(lit "images", JStr (lit "http://x/img.jpg"))]
                  104%N (lit "ttp://x/img.jpg") [] eq_refl)).
Defined.

(** The test of line 25 on an [images] member that is not an object never
    throws, and it passes exactly for a non-empty list and a non-empty
    string; with no data, no member, [null], a number, a boolean, an empty
    list or an empty string the pipeline is skipped. *)
Theorem test_of_line_25_on_plain_images (w : World) (data : value) :
  (forall members, optional_images data <> Some (JObj members)) ->
  has_image w data =
  Returned (match optional_images data with
            | Some (JArr (_ :: _)) | Some (JStr (_ :: _)) => true
            | _ => false
            end).
Proof.
  intros Hplain. unfold has_image.
  destruct (optional_images data) as [[| b | z | s | items | members]|];
    cbn [truthy length_of greater_than_zero]; try reflexivity.
  - destruct b; reflexivity.
  - destruct (negb (z =? 0)%Z); reflexivity.
  - destruct s; reflexivity.
  - destruct items; reflexivity.
  - exfalso. apply (Hplain members). reflexivity.
Qed.

Lemma test_of_line_25_on_plain_images_witness :
  (forall members, optional_images sample_data <> Some (JObj members))
  /\ has_image (sample_world 200) sample_data = Returned true
  /\ has_image (sample_world 200) (Some (JObj [(lit "images", JNum 3)])) = Returned false.
Proof.
  assert (H : forall members, optional_images sample_data <> Some (JObj members))
    by (intros members; discriminate).
  assert (H' : forall members,
             optional_images (Some (JObj [(lit "images", JNum 3)])) <> Some (JObj members))
    by (intros members; discriminate).
  split; [exact H|]. split.
  - exact (test_of_line_25_on_plain_images (sample_world 200) sample_data H).
  - exact (test_of_line_25_on_plain_images (sample_world 200)
             (Some (JObj [(lit "images", JNum 3)])) H').
Defined.

(** An [images] object whose [length] has no primitive value (an object
    with a [toString] member of its own, or a list holding one) makes the
    comparison of line 25 throw a [TypeError].  That line stands before the
    [try]: the error is not turned into a message, the handler throws it,
    logs nothing and builds no response, in every world. *)
Theorem unconvertible_length_throws_outside_the_try
        (w : World) (fields body_fields members : list (jsstring * json))
        (len : json) (items : list json) (c : console) :
  lookup (lit "images") fields = Some (JObj members) ->
  lookup (lit "length") members = Some len ->
  converts len = false ->
  lookup (lit "messages") body_fields = Some (JArr items) ->
  Forall (fun message => message <> JNull) items ->
  lookup (lit "data") body_fields = Some (JObj fields) ->
  has_image w (Some (JObj fields)) = Thrown TypeError_primitive
  /\ response_message w (Some (JObj fields)) c = (Thrown TypeError_primitive, c)
  /\ POST w (Returned (JObj body_fields)) c = (Thrown TypeError_primitive, c).
Proof.
  intros Himages Hlength Hconv Hmessages Hall Hdata.
  assert (Himage : has_image w (Some (JObj fields)) = Thrown TypeError_primitive).
  { unfold has_image. cbn [optional_images]. rewrite Himages.
    cbn [truthy length_of]. rewrite Hlength.
    pose proof (proj2 (to_string_outcome w len) Hconv) as Hthrown.
    destruct len; try discriminate Hconv; cbn [greater_than_zero];
      rewrite Hthrown; reflexivity. }
  split; [exact Himage|]. split.
  - apply response_message_thrown. exact Himage.
  - pose proof (normalize_returns body_fields items c Hmessages Hall) as Hnormalize.
    rewrite (POST_as_answer w _ c c _ _ _ Hnormalize), Hdata.
    apply answer_thrown. exact Himage.
Qed.

Lemma unconvertible_length_throws_outside_the_try_witness :
  converts (JObj [(lit "toString", JNum 0)]) = false
  /\ POST (sample_world 200)
          (Returned (JObj [(lit "messages", JArr []);
                           (lit "data",
                            JObj [(lit "images",
                                   JObj [(lit "length",
                                          JObj [(lit "toString", JNum 0)])])])])) [] =
     (Thrown TypeError_primitive, []).
Proof.
  split; [reflexivity|].
  exact (proj2 (proj2 (unconvertible_length_throws_outside_the_try
           (sample_world 200)
           [(lit "images", JObj [(lit "length", JObj [(lit "toString", JNum 0)])])]
           [(lit "messages", JArr []);
            (lit "data",
             JObj [(lit "images", JObj [(lit "length", JObj [(lit "toString", JNum 0)])])])]
           [(lit "length", JObj [(lit "toString", JNum 0)])]
           (JObj [(lit "toString", JNum 0)]) [] []
           eq_refl eq_refl eq_refl eq_refl (Forall_nil _) eq_refl))).
Defined.

(** ** The handler as a whole *)

(** A parsed body is answered exactly when it is an object whose [messages]
    member is an array without [null] entry and the test of line 25 on its
    [data] member gives an answer; for any other body ([null], a non-object,
    no [messages], a non-array, a [null] message, an [images] length without
    primitive value) the handler throws. *)
Theorem request_is_answered_iff_it_passes_both_checks
        (w : World) (body : json) (c : console) :
  (exists r c', POST w (Returned body) c = (Returned r, c'))
  <->
  (exists fields items passes,
      body = JObj fields
      /\ lookup (lit "messages") fields = Some (JArr items)
      /\ Forall (fun message => message <> JNull) items
      /\ has_image w (lookup (lit "data") fields) = Returned passes).
Proof.
  split.
  - intros [r [c' H]].
    destruct (POST_inv w body c c' r H)
      as [cleaned [selectedModel [data [message [Hnormalize [Hmessage _]]]]]].
    destruct (normalize_inv body c c cleaned selectedModel data Hnormalize)
      as [fields [items [Hbody [Hmessages [Hall Hdata]]]]].
    subst data.
    destruct (has_image w (lookup (lit "data") fields)) as [passes|e] eqn:Himage.
    + exists fields, items, passes. repeat split; assumption.
    + rewrite (response_message_thrown w _ c e Himage) in Hmessage. discriminate Hmessage.
  - intros [fields [items [passes [-> [Hmessages [Hall Himage]]]]]].
    pose proof (normalize_returns fields items c Hmessages Hall) as Hnormalize.
    destruct (response_message_returns w (lookup (lit "data") fields) c passes Himage)
      as [message [c' Hmessage]].
    exists (response_for message), c'.
    eapply POST_after_normalize; [exact Hnormalize | exact Hmessage].
Qed.

(** Every answer of the handler has the same two headers and a stream that
    is already closed, made of at least one [0:] record followed by the [e:]
    and the [d:] record of one message; the console has grown by at most one
    entry, the error of the pipeline. *)
Theorem every_answer_is_a_closed_stream
        (w : World) (req_json : outcome json) (c c' : console) (r : Response) :
  POST w req_json c = (Returned r, c') ->
  headers r = [(lit "Content-Type", lit "text/plain; charset=utf-8");
               (lit "X-Vercel-AI-Data-Stream", lit "v1")]
  /\ closed (body r) = true
  /\ (exists message contents,
        queue (body r) = contents ++ [finish_chunk message; done_chunk message]
        /\ contents <> []
        /\ Forall (fun chunk => tag_of chunk = Some TAG_CONTENT) contents)
  /\ (c' = c \/ exists e, c' = c ++ [logged e]).
Proof.
  intros H. destruct req_json as [body|e]; [|discriminate H].
  destruct (POST_inv w body c c' r H)
    as [cleaned [selectedModel [data [message [_ [Hmessage ->]]]]]].
  split; [reflexivity|]. split; [reflexivity|]. split.
  - exists message, (content_chunks message). split; [reflexivity|]. split.
    + intros Hnil. apply (f_equal (@length _)) in Hnil.
      rewrite content_chunks_length in Hnil.
      pose proof (split_on_not_nil LF message) as Hne.
      destruct (split_on LF message); [contradiction|discriminate].
    + apply content_chunks_tagged.
  - destruct (has_image w data) as [[|]|e0] eqn:Himage.
    + destruct (try_block_shape w data c) as [[e He] | [count [labels [uid Hs]]]].
      * rewrite (response_message_caught w data c c e Himage He) in Hmessage.
        injection Hmessage as _ <-. right. exists e. reflexivity.
      * rewrite (response_message_passed w data c c _ Himage Hs) in Hmessage.
        injection Hmessage as _ <-. left. reflexivity.
    + rewrite (response_message_no_image w data c Himage) in Hmessage.
      injection Hmessage as _ <-. left. reflexivity.
    + rewrite (response_message_thrown w data c e0 Himage) in Hmessage.
      discriminate Hmessage.
Qed.

Lemma every_answer_is_a_closed_stream_witness :
  POST (sample_world 500)
       (Returned (JObj [(lit "messages", JArr []); (lit "data", sample_data_object)])) [] =
    (Returned (response_for (error_message (ErrorInstance (lit "Prediction API error: 500")))),
     [logged (ErrorInstance (lit "Prediction API error: 500"))])
  /\ closed (body (response_for
                     (error_message (ErrorInstance (lit "Prediction API error: 500"))))) = true.
Proof.
  assert (H : POST (sample_world 500)
                (Returned (JObj [(lit "messages", JArr []); (lit "data", sample_data_object)]))
                [] =
              (Returned (response_for
                           (error_message (ErrorInstance (lit "Prediction API error: 500")))),
               [logged (ErrorInstance (lit "Prediction API error: 500"))])).
  { eapply POST_after_normalize; reflexivity. }
  split; [exact H|].
  exact (proj1 (proj2 (every_answer_is_a_closed_stream _ _ _ _ _ H))).
Defined.

(** When the handler throws, it does so before any call to the outside: the
    error is the one of [req.json()], of the normaliser, or of the
    comparison of line 25; nothing has been logged, and the same request
    throws the same error in every world, so no image was fetched, nothing
    stored and no service asked. *)
Theorem a_rejected_request_has_no_effect
        (w : World) (req_json : outcome json) (c c' : console) (e : thrown) :
  POST w req_json c = (Thrown e, c') ->
  c' = c
  /\ (req_json = Thrown e
      \/ (exists body, req_json = Returned body /\ normalize body c = (Thrown e, c))
      \/ (exists body cleaned selectedModel data,
            req_json = Returned body
            /\ normalize body c = (Returned (cleaned, selectedModel, data), c)
            /\ has_image w data = Thrown e))
  /\ forall w', POST w' req_json c = (Thrown e, c).
Proof.
  intros H. destruct (POST_throw_inv w req_json c c' e H) as [Hc Hcause].
  split; [exact Hc|]. split; [exact Hcause|].
  intros w'. apply POST_thrown. apply (rejection_any_world w). exact Hcause.
Qed.

Lemma a_rejected_request_has_no_effect_witness :
  POST (sample_world 200) (Returned (JObj [(lit "data", sample_data_object)])) [] =
    (Thrown (TypeError_read "undefined" "map"), [])
  /\ forall w',
       POST w' (Returned (JObj [(lit "data", sample_data_object)])) [] =
       (Thrown (TypeError_read "undefined" "map"), []).
Proof.
  assert (H : POST (sample_world 200)
                (Returned (JObj [(lit "data", sample_data_object)])) [] =
              (Thrown (TypeError_read "undefined" "map"), [])) by reflexivity.
  split; [exact H|].
  exact (proj2 (proj2 (a_rejected_request_has_no_effect _ _ _ _ _ H))).
Defined.

(** Without an image reference the handler asks nothing of the outside
    world: the whole result (answer or error, and the console) is the same
    in every world. *)
Theorem no_image_no_outside_call
        (w w' : World) (fields : list (jsstring * json)) (c : console) :
  no_image_reference (lookup (lit "data") fields) ->
  POST w (Returned (JObj fields)) c = POST w' (Returned (JObj fields)) c.
Proof.
  intros Hnone.
  assert (Hno : forall v, has_image v (lookup (lit "data") fields) = Returned false).
  { intros v. apply no_image_reference_fails_the_test. assumption. }
  pose proof (normalize_console (JObj fields) c) as Hconsole.
  destruct (normalize (JObj fields) c) as [[[[cleaned selectedModel] data]|e] c1] eqn:Hn;
    simpl in Hconsole; subst c1.
  - destruct (normalize_inv _ _ _ _ _ _ Hn) as [fields0 [items [Hbody [_ [_ Hdata]]]]].
    injection Hbody as <-. subst data.
    transitivity (Returned (response_for default_message), c).
    + eapply POST_after_normalize; [exact Hn|].
      apply response_message_no_image. apply Hno.
    + symmetry. eapply POST_after_normalize; [exact Hn|].
      apply response_message_no_image. apply Hno.
  - transitivity (@Thrown Response e, c).
    + apply POST_thrown. right. left. exists (JObj fields).
      split; [reflexivity | exact Hn].
    + symmetry. apply POST_thrown. right. left. exists (JObj fields).
      split; [reflexivity | exact Hn].
Qed.

Lemma no_image_no_outside_call_witness :
  no_image_reference (lookup (lit "data") [(lit "messages", JArr [])])
  /\ POST (sample_world 200) (Returned (JObj [(lit "messages", JArr [])])) [] =
     POST offline_world (Returned (JObj [(lit "messages", JArr [])])) [].
Proof.
  assert (H : no_image_reference (lookup (lit "data") [(lit "messages", JArr [])]))
    by (left; reflexivity).
  split; [exact H|].
  exact (no_image_no_outside_call (sample_world 200) offline_world
           [(lit "messages", JArr [])] [] H).
Defined.

(** ** The normaliser *)

(** Cleaning is idempotent and keeps the conversation's length: a cleaned
    conversation is again accepted and comes back unchanged, and none of its
    messages has an [experimental_attachments] member. *)
Theorem cleaning_twice_is_cleaning_once
        (items cleaned : list json) (c c' : console) :
  cleanedMessages (Some (JArr items)) c = (Returned cleaned, c') ->
  cleanedMessages (Some (JArr cleaned)) c = (Returned cleaned, c)
  /\ length cleaned = length items
  /\ Forall (fun message => member "experimental_attachments" (Some message) = None)
            cleaned.
Proof.
  intros H. cbn [cleanedMessages] in *.
  pose proof (mapM_cleanMessage_result items c c' cleaned H) as ->.
  split; [|split].
  - rewrite mapM_cleanMessage.
    + rewrite map_map. do 2 f_equal. apply map_ext. intros message.
      cbn [own_properties]. rewrite without_idempotent. reflexivity.
    + apply Forall_forall. intros message Hin. apply in_map_iff in Hin.
      destruct Hin as [x [<- _]]. discriminate.
  - apply length_map.
  - apply Forall_forall. intros message Hin. apply in_map_iff in Hin.
    destruct Hin as [x [<- _]]. cbn [member].
    change (lit "experimental_attachments") with ATTACHMENTS.
    rewrite lookup_without.
    rewrite (proj2 (str_eqb_eq ATTACHMENTS ATTACHMENTS) eq_refl). reflexivity.
Qed.

Lemma cleaning_twice_is_cleaning_once_witness :
  cleanedMessages (Some (JArr [JObj sample_message_record; JStr (lit "hi"); JNum 7])) [] =
    (Returned [JObj [(lit "role", JStr (lit "user"));
                     (lit "content", JStr (lit "what is this?"))];
               JObj [(lit "0", JStr (lit "h")); (lit "1", JStr (lit "i"))];
               JObj []], [])
  /\ cleanedMessages
       (Some (JArr [JObj [(lit "role", JStr (lit "user"));
                          (lit "content", JStr (lit "what is this?"))];
                    JObj [(lit "0", JStr (lit "h")); (lit "1", JStr (lit "i"))];
                    JObj []])) [] =
     (Returned [JObj [(lit "role", JStr (lit "user"));
                      (lit "content", JStr (lit "what is this?"))];
                JObj [(lit "0", JStr (lit "h")); (lit "1", JStr (lit "i"))];
                JObj []], []).
Proof.
  assert (H : cleanedMessages
                (Some (JArr [JObj sample_message_record; JStr (lit "hi"); JNum 7])) [] =
              (Returned [JObj [(lit "role", JStr (lit "user"));
                               (lit "content", JStr (lit "what is this?"))];
                         JObj [(lit "0", JStr (lit "h")); (lit "1", JStr (lit "i"))];
                         JObj []], [])) by reflexivity.
  split; [exact H|].
  exact (proj1 (cleaning_twice_is_cleaning_once _ _ _ _ H)).
Defined.

(** ** The stream on the wire *)

(** The stream holds one [0:] record per line of the message, that is one
    more than the message has newlines, and three records more than
    newlines in all. *)
Theorem one_content_record_per_line (message : jsstring) (c : console) :
  exists stream,
    start message new_controller c = (Returned stream, c)
    /\ length (List.filter (has_tag TAG_CONTENT) (queue stream)) = S (newlines message)
    /\ length (queue stream) = newlines message + 3.
Proof.
  eexists. split; [apply start_emits|]. cbn [queue]. split.
  - rewrite filter_app, (filter_tag_all _ (content_chunks_tagged message)).
    cbn [List.filter]. unfold has_tag. rewrite finish_chunk_tag, done_chunk_tag.
    simpl. rewrite app_nil_r, content_chunks_length. apply split_on_length.
  - rewrite length_app, content_chunks_length, split_on_length. simpl. lia.
Qed.

(** Every chunk handed to the stream is exactly one line of the wire: it
    ends with the newline byte and holds no other newline byte, because
    [JSON.stringify] escapes the newlines of the content.  A reader that
    cuts the body at newlines finds the records again. *)
Theorem every_chunk_is_one_line (message : jsstring) (c : console) :
  exists stream,
    start message new_controller c = (Returned stream, c)
    /\ Forall one_line (queue stream).
Proof.
  eexists. split; [apply start_emits|]. cbn [queue].
  apply Forall_app. split.
  - rewrite content_chunks_with_newlines. apply Forall_forall.
    intros chunk Hin. apply in_map_iff in Hin. destruct Hin as [content [<- _]].
    apply content_record_line.
  - repeat constructor; [apply finish_record_line | apply done_record_line].
Qed.

(** The body is valid UTF-8 text, record by record: decoding each chunk
    gives the text [tag:json] and a newline that the handler built, for the
    content records as for the two trailers. *)
Theorem every_chunk_decodes_to_its_record (message : jsstring) (c : console) :
  code_units message ->
  exists stream,
    start message new_controller c = (Returned stream, c)
    /\ List.map TextDecoder_decode (queue stream) =
       List.map Some
         (List.map (fun content => record_text "0" (Some (JStr content)))
                   (with_newlines (split_on LF message))
          ++ [record_text "e" (Some (finish_event message));
              record_text "d" (Some (done_event message))]).
Proof.
  intros Hunits. eexists. split; [apply start_emits|]. cbn [queue].
  rewrite !map_app, content_chunks_with_newlines.
  rewrite content_records_decode by (apply with_newlines_code_units; assumption).
  cbn [List.map]. rewrite finish_record_decodes, done_record_decodes. reflexivity.
Qed.

Lemma every_chunk_decodes_to_its_record_witness :
  code_units (lit "a" ++ [LF] ++ CROSS_MARK)
  /\ exists stream,
       start (lit "a" ++ [LF] ++ CROSS_MARK) new_controller [] = (Returned stream, [])
       /\ List.map TextDecoder_decode (queue stream) =
          [Some (lit "0:" ++ [DQUOTE] ++ lit "a" ++ [BACKSLASH] ++ lit "n" ++ [DQUOTE; LF]);
           Some (lit "0:" ++ [DQUOTE] ++ CROSS_MARK ++ [DQUOTE; LF]);
           Some (record_text "e" (Some (finish_event (lit "a" ++ [LF] ++ CROSS_MARK))));
           Some (record_text "d" (Some (done_event (lit "a" ++ [LF] ++ CROSS_MARK))))].
Proof.
  assert (Hunits : code_units (lit "a" ++ [LF] ++ CROSS_MARK)) by (repeat constructor).
  split; [exact Hunits|].
  destruct (every_chunk_decodes_to_its_record (lit "a" ++ [LF] ++ CROSS_MARK) [] Hunits)
    as [stream [Hstart Hdecode]].
  exists stream. split; [exact Hstart | exact Hdecode].
Defined.
